(** * argon2id: encoding, decoding and verification of argon2id records

    A shallow embedding of the Go package [argon2id] (functions
    [decodeHash], [CompareHashAndPassword] and [GenerateFromPassword])
    together with the parts of the Go standard library the package calls:
    [strings.Split], [fmt.Sscanf], [fmt.Sprintf], [strconv.ParseUint],
    [strconv.ParseInt], [unicode/utf8], [encoding/base64],
    [crypto/subtle.ConstantTimeCompare] and [io.ReadFull].

    Conventions.
    - A Go [string] is a [String.string] (a sequence of 8-bit characters).
    - A Go [[]byte] is a [list byte].
    - Fixed-width integers are [Z] with the wrap-around written out; the
      platform has 64 bits, so [int] is [int64].
    - A Go [error] is a value of the inductive type [error]; [nil] is
      [None] in an [option error].  A multiple return [(x, err)] whose
      value is dropped on error is a [result].
    - A panic inside [fmt] that [fmt] itself recovers is the error it
      becomes.
    - The random source is passed in and handed back.
    - The memory-hard primitive [argon2.IDKey] is a parameter of the
      development: any function of password, salt, time, memory, threads
      and key length.

    The first part holds the definitions, the second the proofs. *)

From Stdlib Require Import ZArith List Bool Lia.
From Stdlib.Strings Require Import String Ascii Byte.
Import ListNotations.
Local Open Scope string_scope.
Local Open Scope Z_scope.

(** ** Errors and fallible results *)

(** Why [strconv] rejected a number. *)
Inductive numErr : Type :=
| ErrRange
| ErrSyntax.

(** The error values that can reach a caller of this package.  The first
    three are the package's own sentinel values; the others are created by
    the standard library.  Go compares error values by identity, and every
    value made inside the library differs from the three sentinels; here
    that is the distinctness of constructors. *)
Inductive error : Type :=
| ErrInvalidHash
| ErrIncompatibleVersion
| ErrPasswordNotMatch
| EOF
| ErrUnexpectedEOF
| ScanError (msg : string)
| NumError (func num : string) (why : numErr)
| CorruptInputError (offset : Z).

Inductive result (A : Type) : Type :=
| Ok (a : A)
| Err (e : error).
Arguments Ok {A} a.
Arguments Err {A} e.

Definition bind {A B : Type} (r : result A) (k : A -> result B) : result B :=
  match r with
  | Ok a => k a
  | Err e => Err e
  end.

Notation "x <- r ;; k" := (bind r (fun x => k))
  (at level 61, r at next level, right associativity).
Notation "' pat <- r ;; k" := (bind r (fun x => match x with pat => k end))
  (at level 61, pat pattern, r at next level, right associativity).

(** ** Machine integers and bytes *)

Definition uint8 (z : Z) : Z := z mod 2 ^ 8.
Definition uint32 (z : Z) : Z := z mod 2 ^ 32.
Definition uint64 (z : Z) : Z := z mod 2 ^ 64.

Definition byteZ (b : byte) : Z := Z.of_N (Byte.to_N b).

(** The conversion [byte(z)]: the low eight bits. *)
Definition Zbyte (z : Z) : byte :=
  match Byte.of_N (Z.to_N (uint8 z)) with
  | Some b => b
  | None => x00
  end.

Definition asciiZ (c : ascii) : Z := Z.of_N (N_of_ascii c).
Definition Zascii (z : Z) : ascii := ascii_of_N (Z.to_N (uint8 z)).

(** ** Package [strings] *)

Module strings.

(** [strings.Split(s, sep)] for a separator of one byte: the segments of
    [s] between the occurrences of [sep], in order.  A string without the
    separator is its own single segment, and the empty string yields one
    empty segment. *)
Fixpoint Split (s : string) (sep : ascii) : list string :=
  match s with
  | EmptyString => [EmptyString]
  | String c rest =>
      if Ascii.eqb c sep then EmptyString :: Split rest sep
      else match Split rest sep with
           | seg :: segs => String c seg :: segs
           | [] => [String c EmptyString]
           end
  end.

(** [strings.Count(s, sep)] for a separator of one byte. *)
Fixpoint Count (s : string) (sep : ascii) : nat :=
  match s with
  | EmptyString => 0%nat
  | String c rest => ((if Ascii.eqb c sep then 1 else 0) + Count rest sep)%nat
  end.

(** [strings.ContainsRune] for a one-byte rune. *)
Fixpoint Contains (s : string) (c : ascii) : bool :=
  match s with
  | EmptyString => false
  | String d rest => Ascii.eqb d c || Contains rest c
  end.

End strings.

(** ** Package [crypto/subtle] *)

Module subtle.

(** [ConstantTimeByteEq(x, y) = int((uint32(x^y) - 1) >> 31)]. *)
Definition ConstantTimeByteEq (x y : Z) : Z :=
  Z.shiftr (uint32 (uint32 (Z.lxor x y) - 1)) 31.

(** The loop [for i := 0; i < len(x); i++ { v |= x[i] ^ y[i] }]. *)
Fixpoint accumulate (v : Z) (x y : list byte) : Z :=
  match x, y with
  | a :: x', b :: y' => accumulate (Z.lor v (Z.lxor (byteZ a) (byteZ b))) x' y'
  | _, _ => v
  end.

(** [ConstantTimeCompare(x, y)]: 1 when the slices are equal, 0 otherwise;
    slices of different lengths give 0 at once. *)
Definition ConstantTimeCompare (x y : list byte) : Z :=
  if negb (Nat.eqb (List.length x) (List.length y)) then 0
  else ConstantTimeByteEq (accumulate 0 x y) 0.

End subtle.

(** ** Package [unicode/utf8] *)

Module utf8.

Definition RuneError : Z := 0xFFFD.

(** A continuation byte outside [lo, hi]. *)
Definition outside (lo hi b : Z) : bool := (b <? lo) || (hi <? b).

(** The bounds [acceptRanges] gives for the second byte after the lead
    byte [p0]. *)
Definition acceptRange (p0 : Z) : Z * Z :=
  if p0 =? 0xE0 then (0xA0, 0xBF)
  else if p0 =? 0xED then (0x80, 0x9F)
  else if p0 =? 0xF0 then (0x90, 0xBF)
  else if p0 =? 0xF4 then (0x80, 0x8F)
  else (0x80, 0xBF).

(** The runes of a string, read from left to right with [DecodeRune]: an
    ASCII byte is itself, a well-formed sequence of two to four bytes is
    one rune, and any other byte is [RuneError] of width one. *)
Fixpoint runes (s : string) : list Z :=
  match s with
  | EmptyString => []
  | String c0 r0 =>
      let p0 := asciiZ c0 in
      if p0 <? 0x80 then p0 :: runes r0
      else if (p0 <? 0xC2) || (0xF4 <? p0) then RuneError :: runes r0
      else
        let (lo, hi) := acceptRange p0 in
        match r0 with
        | EmptyString => RuneError :: runes r0
        | String c1 r1 =>
            let b1 := asciiZ c1 in
            if outside lo hi b1 then RuneError :: runes r0
            else if p0 <? 0xE0 then
              Z.lor (Z.shiftl (Z.land p0 0x1F) 6) (Z.land b1 0x3F) :: runes r1
            else
              match r1 with
              | EmptyString => RuneError :: runes r0
              | String c2 r2 =>
                  let b2 := asciiZ c2 in
                  if outside 0x80 0xBF b2 then RuneError :: runes r0
                  else if p0 <? 0xF0 then
                    Z.lor (Z.lor (Z.shiftl (Z.land p0 0x0F) 12)
                                 (Z.shiftl (Z.land b1 0x3F) 6))
                          (Z.land b2 0x3F) :: runes r2
                  else
                    match r2 with
                    | EmptyString => RuneError :: runes r0
                    | String c3 r3 =>
                        let b3 := asciiZ c3 in
                        if outside 0x80 0xBF b3 then RuneError :: runes r0
                        else
                          Z.lor (Z.lor (Z.lor (Z.shiftl (Z.land p0 0x07) 18)
                                              (Z.shiftl (Z.land b1 0x3F) 12))
                                       (Z.shiftl (Z.land b2 0x3F) 6))
                                (Z.land b3 0x3F) :: runes r3
                    end
              end
        end
  end.

End utf8.

(** ** Package [strconv] *)

Module strconv.

Definition maxUint64 : Z := 2 ^ 64 - 1.

(** The digit loop of [ParseUint] in base 10: the value read so far is
    [n]; a byte that is not a decimal digit is a syntax error, and a value
    that leaves 64 bits or exceeds [maxVal] is a range error, reported with
    the value [maxVal]. *)
Fixpoint digitLoop (cs : string) (n cutoff maxVal : Z) : Z * option numErr :=
  match cs with
  | EmptyString => (n, None)
  | String c rest =>
      let b := asciiZ c in
      if (48 <=? b) && (b <=? 57) then
        let d := b - 48 in
        if cutoff <=? n then (maxVal, Some ErrRange)
        else
          let n10 := uint64 (n * 10) in
          let n1 := uint64 (n10 + d) in
          if (n1 <? n10) || (maxVal <? n1) then (maxVal, Some ErrRange)
          else digitLoop rest n1 cutoff maxVal
      else (0, Some ErrSyntax)
  end.

(** [ParseUint(s, 10, bitSize)] as a value and the reason of a failure. *)
Definition parseUint (s : string) (bitSize : Z) : Z * option numErr :=
  match s with
  | EmptyString => (0, Some ErrSyntax)
  | _ => digitLoop s 0 (maxUint64 / 10 + 1) (2 ^ bitSize - 1)
  end.

(** [strconv.ParseUint(s, 10, bitSize)]. *)
Definition ParseUint (s : string) (bitSize : Z) : result Z :=
  match parseUint s bitSize with
  | (n, None) => Ok n
  | (_, Some why) => Err (NumError "ParseUint" s why)
  end.

(** [strconv.ParseInt(s, 10, bitSize)]: an optional sign, then
    [ParseUint]; the magnitude must fit the signed range. *)
Definition ParseInt (s0 : string) (bitSize : Z) : result Z :=
  match s0 with
  | EmptyString => Err (NumError "ParseInt" s0 ErrSyntax)
  | String c rest =>
      let neg := Ascii.eqb c "-" in
      let s := if Ascii.eqb c "+" || neg then rest else s0 in
      match parseUint s bitSize with
      | (_, Some ErrSyntax) => Err (NumError "ParseInt" s0 ErrSyntax)
      | (un, _) =>
          let cutoff := 2 ^ (bitSize - 1) in
          if negb neg && (cutoff <=? un) then Err (NumError "ParseInt" s0 ErrRange)
          else if neg && (cutoff <? un) then Err (NumError "ParseInt" s0 ErrRange)
          else Ok (if neg then - un else un)
      end
  end.

End strconv.

(** ** Package [fmt] *)

Module fmt.

(** *** Scanning *)

(** The state of a scan: the runes not yet read and how many were read. *)
Record ss : Type := mkss { rs : list Z; count : Z }.

Definition hugeWid : Z := Z.shiftl 1 30.

(** The operands the package scans into. *)
Inductive operand : Type :=
| IntPtr
| Uint32Ptr
| Uint8Ptr.

Definition space : list (Z * Z) :=
  [ (0x0009, 0x000d); (0x0020, 0x0020); (0x0085, 0x0085); (0x00a0, 0x00a0);
    (0x1680, 0x1680); (0x2000, 0x200a); (0x2028, 0x2029); (0x202f, 0x202f);
    (0x205f, 0x205f); (0x3000, 0x3000) ].

Fixpoint inRanges (rx : Z) (ranges : list (Z * Z)) : bool :=
  match ranges with
  | [] => false
  | (lo, hi) :: rest =>
      if rx <? lo then false
      else if rx <=? hi then true
      else inRanges rx rest
  end.

Definition isSpace (r : Z) : bool :=
  if Z.shiftl 1 16 <=? r then false else inRanges r space.

(** [ReadRune]: the next rune, or nothing at the end of the input or once
    [hugeWid] runes were read (no verb of the package has a width, so the
    limit of every operand is [hugeWid]). *)
Definition ReadRune (s : ss) : option (Z * ss) :=
  if hugeWid <=? count s then None
  else match rs s with
       | [] => None
       | r :: rest => Some (r, mkss rest (count s + 1))
       end.

(** [peek(ok)]: whether the next rune is one of [ok]; the state is left
    as it was. *)
Definition peek (ok : string) (s : ss) : bool :=
  match ReadRune s with
  | None => false
  | Some (r, _) => existsb (Z.eqb r) (utf8.runes ok)
  end.

(** [SkipSpace] for [Sscanf], where a newline is not a space: spaces and
    carriage returns are read and dropped, a newline is an error, and the
    first other rune is left unread. *)
Fixpoint skipRunes (input : list Z) (n : Z) : result ss :=
  match input with
  | [] => Ok (mkss input n)
  | r :: rest =>
      if hugeWid <=? n then Ok (mkss input n)
      else if (r =? 13) && peek (String "010" EmptyString) (mkss rest (n + 1))
      then skipRunes rest (n + 1)
      else if r =? 10 then Err (ScanError "unexpected newline")
      else if negb (isSpace r) then Ok (mkss input n)
      else skipRunes rest (n + 1)
  end.

Definition SkipSpace (s : ss) : result ss := skipRunes (rs s) (count s).

(** [notEOF]: panics with [io.EOF] when nothing is left to read. *)
Definition notEOF (s : ss) : result unit :=
  match ReadRune s with
  | None => Err EOF
  | Some _ => Ok tt
  end.

Definition indexRune (ok : string) (r : Z) : bool :=
  existsb (Z.eqb r) (utf8.runes ok).

(** [accept(ok)]: reads the next rune into the token buffer when it is one
    of [ok]; otherwise the state is unchanged. *)
Definition accept (ok : string) (buf : string) (s : ss) : bool * string * ss :=
  match ReadRune s with
  | None => (false, buf, s)
  | Some (r, s') =>
      if indexRune ok r then (true, buf ++ String (Zascii r) EmptyString, s')
      else (false, buf, s)
  end.

(** The loop [for s.accept(digits) {}]. *)
Fixpoint acceptAll (ok : string) (buf : string) (input : list Z) (n : Z)
  : string * ss :=
  match input with
  | [] => (buf, mkss input n)
  | r :: rest =>
      if hugeWid <=? n then (buf, mkss input n)
      else if indexRune ok r
      then acceptAll ok (buf ++ String (Zascii r) EmptyString) rest (n + 1)
      else (buf, mkss input n)
  end.

Definition decimalDigits : string := "0123456789".
Definition sign : string := "+-".

(** [scanNumber(digits, false)]: at least one digit, then all that
    follow; returns the token buffer. *)
Definition scanNumber (digits : string) (buf : string) (s : ss)
  : result (string * ss) :=
  _ <- notEOF s ;;
  match accept digits buf s with
  | (false, _, _) => Err (ScanError "expected integer")
  | (true, buf1, s1) => Ok (acceptAll digits buf1 (rs s1) (count s1))
  end.

(** [okVerb(verb, "bdoUxXv", "integer")]; of these verbs only [d] is
    modelled, the others are treated as a bad verb. *)
Definition getBase (verb : ascii) : result unit :=
  if Ascii.eqb verb "d" then Ok tt
  else Err (ScanError ("bad verb '%" ++ String verb "' for integer")).

Definition int64 (z : Z) : Z := (z + 2 ^ 63) mod 2 ^ 64 - 2 ^ 63.

(** [scanInt(verb, bitSize)]. *)
Definition scanInt (verb : ascii) (bitSize : Z) (s : ss) : result (Z * ss) :=
  s1 <- SkipSpace s ;;
  _ <- notEOF s1 ;;
  _ <- getBase verb ;;
  let '(_, buf, s2) := accept sign EmptyString s1 in
  ' (tok, s3) <- scanNumber decimalDigits buf s2 ;;
  i <- strconv.ParseInt tok 64 ;;
  let x := Z.shiftr (int64 (Z.shiftl i (64 - bitSize))) (64 - bitSize) in
  if negb (x =? i) then Err (ScanError ("integer overflow on token " ++ tok))
  else Ok (i, s3).

(** [scanUint(verb, bitSize)]. *)
Definition scanUint (verb : ascii) (bitSize : Z) (s : ss) : result (Z * ss) :=
  s1 <- SkipSpace s ;;
  _ <- notEOF s1 ;;
  _ <- getBase verb ;;
  ' (tok, s3) <- scanNumber decimalDigits EmptyString s1 ;;
  i <- strconv.ParseUint tok 64 ;;
  let x := Z.shiftr (uint64 (Z.shiftl i (64 - bitSize))) (64 - bitSize) in
  if negb (x =? i)
  then Err (ScanError ("unsigned integer overflow on token " ++ tok))
  else Ok (i, s3).

(** [scanOne(verb, arg)] for the three operand types; the value stored
    through the pointer is converted to the operand's type. *)
Definition scanOne (verb : ascii) (arg : operand) (s : ss) : result (Z * ss) :=
  match arg with
  | IntPtr => ' (i, s') <- scanInt verb 64 s ;; Ok (int64 i, s')
  | Uint32Ptr => ' (i, s') <- scanUint verb 32 s ;; Ok (uint32 i, s')
  | Uint8Ptr => ' (i, s') <- scanUint verb 8 s ;; Ok (uint8 i, s')
  end.

(** [doScanf] for formats made of literal runes (no spaces, no [%%]) and
    verbs without width, which is what the two formats of the package use:
    a literal rune must be the next rune of the input; a verb skips
    spaces and scans one operand.  The input need not be used up.  The
    scanned values are returned in the order of the operands. *)
Fixpoint doScanf (format : string) (a : list operand) (s : ss) : result (list Z) :=
  match format with
  | EmptyString =>
      match a with
      | [] => Ok []
      | _ :: _ => Err (ScanError "too many operands")
      end
  | String c rest =>
      if Ascii.eqb c "%" then
        match rest with
        | EmptyString =>
            Err (ScanError "missing verb: % at end of format string")
        | String verb rest' =>
            s1 <- SkipSpace s ;;
            match a with
            | [] =>
                Err (ScanError ("too few operands for format '%" ++ rest ++ "'"))
            | arg :: a' =>
                ' (v, s2) <- scanOne verb arg s1 ;;
                vs <- doScanf rest' a' s2 ;;
                Ok (v :: vs)
            end
        end
      else
        match ReadRune s with
        | None => Err ErrUnexpectedEOF
        | Some (r, s') =>
            if r =? asciiZ c then doScanf rest a s'
            else Err (ScanError "input does not match format")
        end
  end.

(** [fmt.Sscanf(str, format, a...)]. *)
Definition Sscanf (str format : string) (a : list operand) : result (list Z) :=
  doScanf format a (mkss (utf8.runes str) 0).

(** *** Printing *)

(** The operands the package prints, with their Go types. *)
Inductive arg : Type :=
| Int (v : Z)
| Uint32 (v : Z)
| Uint8 (v : Z)
| Str (s : string).

(** The digit loop of [fmtInteger] in base 10: digits are produced from
    the least significant one and written in front of [acc].  The buffer
    of [fmtInteger] bounds the number of rounds; [fuel] plays that role. *)
Fixpoint fmtDigits (fuel : nat) (u : Z) (acc : string) : string :=
  match fuel with
  | O => acc
  | S fuel' =>
      if 10 <=? u then
        let next := u / 10 in
        fmtDigits fuel' next (String (Zascii (48 + u - next * 10)) acc)
      else String (Zascii (48 + u)) acc
  end.

(** Twenty digits hold every value of 64 bits. *)
Definition fmtUnsigned (u : Z) : string := fmtDigits 20 u EmptyString.

(** [fmtInteger(v, 10, isSigned, 'd', ldigits)] without flags. *)
Definition fmtInteger (v : Z) : string :=
  if v <? 0 then String "-" (fmtUnsigned (- v)) else fmtUnsigned v.

Definition typeName (x : arg) : string :=
  match x with
  | Int _ => "int"
  | Uint32 _ => "uint32"
  | Uint8 _ => "uint8"
  | Str _ => "string"
  end.

(** The operand under the verb [%v]. *)
Definition printValue (x : arg) : string :=
  match x with
  | Int v | Uint32 v | Uint8 v => fmtInteger v
  | Str s => s
  end.

(** [printArg(arg, verb)] for the verbs [d], [s] and [v]; any other verb
    is rendered as a verb that does not apply to the operand. *)
Definition printArg (verb : ascii) (x : arg) : string :=
  let bad := "%!" ++ String verb ("(" ++ typeName x ++ "=" ++ printValue x ++ ")") in
  if Ascii.eqb verb "v" then printValue x
  else match x with
       | Str s => if Ascii.eqb verb "s" then s else bad
       | _ => if Ascii.eqb verb "d" then printValue x else bad
       end.

Fixpoint extras (a : list arg) : string :=
  match a with
  | [] => EmptyString
  | [x] => typeName x ++ "=" ++ printValue x
  | x :: rest => typeName x ++ "=" ++ printValue x ++ ", " ++ extras rest
  end.

(** [doPrintf] for formats whose verbs carry no flags, width or
    precision: literal bytes are copied, each verb prints the next
    operand. *)
Fixpoint doPrintf (format : string) (a : list arg) : string :=
  match format with
  | EmptyString =>
      match a with
      | [] => EmptyString
      | _ :: _ => "%!(EXTRA " ++ extras a ++ ")"
      end
  | String c rest =>
      if Ascii.eqb c "%" then
        match rest with
        | EmptyString => "%!(NOVERB)"
        | String verb rest' =>
            if Ascii.eqb verb "%" then String "%" (doPrintf rest' a)
            else match a with
                 | [] => "%!" ++ String verb ("(MISSING)" ++ doPrintf rest' [])
                 | x :: a' => printArg verb x ++ doPrintf rest' a'
                 end
        end
      else String c (doPrintf rest a)
  end.

(** [fmt.Sprintf(format, a...)]. *)
Definition Sprintf (format : string) (a : list arg) : string := doPrintf format a.

End fmt.

(** ** Package [encoding/base64]: [RawStdEncoding] *)

Module base64.

Definition encodeStd : string :=
  "ABCDEFGHIJKLMNOPQRSTUVWXYZabcdefghijklmnopqrstuvwxyz0123456789+/".

(** [enc.encode[i]]. *)
Definition encode (i : Z) : ascii :=
  match String.get (Z.to_nat i) encodeStd with
  | Some c => c
  | None => zero
  end.

Fixpoint indexByte (s : string) (c : ascii) (i : Z) : Z :=
  match s with
  | EmptyString => 0xFF
  | String d rest => if Ascii.eqb d c then i else indexByte rest c (i + 1)
  end.

(** [enc.decodeMap[c]]: the position of [c] in the alphabet, [0xFF] for a
    byte outside it. *)
Definition decodeMap (c : ascii) : Z := indexByte encodeStd c 0.

(** [EncodeToString] without padding: three bytes become four
    characters, a rest of two bytes three, a rest of one byte two. *)
Fixpoint EncodeToString (src : list byte) : string :=
  match src with
  | [] => EmptyString
  | [b0] =>
      let val := Z.shiftl (byteZ b0) 16 in
      String (encode (Z.land (Z.shiftr val 18) 0x3F))
        (String (encode (Z.land (Z.shiftr val 12) 0x3F)) EmptyString)
  | [b0; b1] =>
      let val := Z.lor (Z.shiftl (byteZ b0) 16) (Z.shiftl (byteZ b1) 8) in
      String (encode (Z.land (Z.shiftr val 18) 0x3F))
        (String (encode (Z.land (Z.shiftr val 12) 0x3F))
           (String (encode (Z.land (Z.shiftr val 6) 0x3F)) EmptyString))
  | b0 :: b1 :: b2 :: rest =>
      let val := Z.lor (Z.lor (Z.shiftl (byteZ b0) 16) (Z.shiftl (byteZ b1) 8))
                       (byteZ b2) in
      String (encode (Z.land (Z.shiftr val 18) 0x3F))
        (String (encode (Z.land (Z.shiftr val 12) 0x3F))
           (String (encode (Z.land (Z.shiftr val 6) 0x3F))
              (String (encode (Z.land val 0x3F)) (EncodeToString rest))))
  end.

(** The end of [decodeQuantum]: the sextets of [dbuf] (two, three or
    four of them) packed into 24 bits and cut into one, two or three
    bytes; bits beyond the last whole byte are dropped, as the encoding is
    not strict. *)
Definition quantumBytes (dbuf : list Z) : list byte :=
  let d i := nth i dbuf 0 in
  let val := Z.lor (Z.lor (Z.lor (Z.shiftl (d 0%nat) 18) (Z.shiftl (d 1%nat) 12))
                          (Z.shiftl (d 2%nat) 6))
                   (d 3%nat) in
  let b0 := Zbyte (Z.shiftr val 16) in
  let b1 := Zbyte (Z.shiftr val 8) in
  let b2 := Zbyte (Z.shiftr val 0) in
  match List.length dbuf with
  | 4%nat => [b0; b1; b2]
  | 3%nat => [b0; b1]
  | 2%nat => [b0]
  | _ => []
  end.

(** [Decode]: the calls of [decodeQuantum] one after the other.  [si] is
    the index of the next byte of the input, [dbuf] holds the sextets of
    the quantum being read and [out] the bytes decoded so far.  Line
    breaks are skipped, any other byte outside the alphabet is corrupt
    input at its index, and so is an input that ends after the first
    character of a quantum. *)
Fixpoint decode (src : string) (si : Z) (dbuf : list Z) (out : list byte)
  : result (list byte) :=
  match src with
  | EmptyString =>
      match dbuf with
      | [] => Ok out
      | [_] => Err (CorruptInputError (si - 1))
      | _ => Ok (out ++ quantumBytes dbuf)%list
      end
  | String c rest =>
      let d := decodeMap c in
      if negb (d =? 0xFF) then
        let dbuf' := (dbuf ++ [d])%list in
        if Nat.eqb (List.length dbuf') 4
        then decode rest (si + 1) [] (out ++ quantumBytes dbuf')%list
        else decode rest (si + 1) dbuf' out
      else if Ascii.eqb c "010" || Ascii.eqb c "013"
      then decode rest (si + 1) dbuf out
      else Err (CorruptInputError si)
  end.

(** [RawStdEncoding.DecodeString(s)]. *)
Definition DecodeString (s : string) : result (list byte) := decode s 0 [] [].

End base64.

(** ** Package [io] and the random source *)

Module io.

(** The random source is the sequence of bytes it still has to deliver;
    a source that runs dry fails. *)
Definition Reader : Type := list byte.

(** [io.ReadFull(r, buf)] for a buffer of [n] bytes: exactly [n] bytes,
    or an error when the source ends first ([EOF] when it delivered
    nothing at all). *)
Definition ReadFull (r : Reader) (n : nat) : result (list byte) * Reader :=
  if Nat.leb n (List.length r) then (Ok (firstn n r), skipn n r)
  else match r with
       | [] => (Err EOF, [])
       | _ :: _ => (Err ErrUnexpectedEOF, [])
       end.

End io.

(** ** Package [golang.org/x/crypto/argon2] *)

Module argon2.

(** [argon2.Version = 0x13]. *)
Definition Version : Z := 0x13.

End argon2.

(** ** Package [argon2id] *)

Module argon2id.

(** [Params] stores the argon2 parameters. *)
Record Params : Type := mkParams {
  Memory : Z;       (* uint32 *)
  Iterations : Z;   (* uint32 *)
  Parallelism : Z;  (* uint8 *)
  SaltLength : Z;   (* uint32 *)
  KeyLength : Z     (* uint32 *)
}.

(** A value of the Go type: every field within its width. *)
Definition wellTyped (p : Params) : Prop :=
  0 <= Memory p < 2 ^ 32 /\ 0 <= Iterations p < 2 ^ 32 /\
  0 <= Parallelism p < 2 ^ 8 /\
  0 <= SaltLength p < 2 ^ 32 /\ 0 <= KeyLength p < 2 ^ 32.

(** The invariant the specification asks of cost parameters. *)
Definition allPositive (p : Params) : Prop :=
  0 < Memory p /\ 0 < Iterations p /\ 0 < Parallelism p /\
  0 < SaltLength p /\ 0 < KeyLength p.

Definition valid (p : Params) : Prop := wellTyped p /\ allPositive p.

(** The configuration used when no parameters are given. *)
Definition defaultParams : Params :=
  {| Memory := 4096; Iterations := 10; Parallelism := 2;
     SaltLength := 32; KeyLength := 64 |}.

(** [decodeHash] decodes the argon2 hash and returns the protection
    parameters, the salt and the hashed password. *)
Definition decodeHash (hash : string) : result (Params * list byte * list byte) :=
  let elems := strings.Split hash "$" in
  if negb (Nat.eqb (List.length elems) 6) then Err ErrInvalidHash
  else
    (* Check the version number. *)
    vs <- fmt.Sscanf (nth 2 elems "") "v=%d" [fmt.IntPtr] ;;
    let ver := nth 0 vs 0 in
    if negb (String.eqb (nth 1 elems "") "argon2id") || negb (ver =? argon2.Version)
    then Err ErrIncompatibleVersion
    else
      (* Build the parameters. *)
      ps <- fmt.Sscanf (nth 3 elems "") "m=%d,t=%d,p=%d"
              [fmt.Uint32Ptr; fmt.Uint32Ptr; fmt.Uint8Ptr] ;;
      salt <- base64.DecodeString (nth 4 elems "") ;;
      hashedPassword <- base64.DecodeString (nth 5 elems "") ;;
      Ok ({| Memory := nth 0 ps 0;
             Iterations := nth 1 ps 0;
             Parallelism := nth 2 ps 0;
             SaltLength := uint32 (Z.of_nat (List.length salt));
             KeyLength := uint32 (Z.of_nat (List.length hashedPassword)) |},
          salt, hashedPassword).

Section Primitive.

(** [argon2.IDKey(password, salt, time, memory, threads, keyLen)]. *)
Variable IDKey : list byte -> list byte -> Z -> Z -> Z -> Z -> list byte.

(** [CompareHashAndPassword] compares an argon2id hashed password with its
    possible plaintext equivalent.  [None] on success, or an error. *)
Definition CompareHashAndPassword (hash : string) (pass : list byte) : option error :=
  match decodeHash hash with
  | Err err => Some err
  | Ok (p, salt, hashedPass) =>
      (* Let's calculate the hash from the user provided password. *)
      let userHash :=
        IDKey pass salt (Iterations p) (Memory p) (Parallelism p) (KeyLength p) in
      (* Let's compare the hash values. *)
      if subtle.ConstantTimeCompare userHash hashedPass =? 0
      then Some ErrPasswordNotMatch
      else None
  end.

(** [GenerateFromPassword] generates the string representation of argon2id
    from the given password and parameters: the string with no error, or
    the empty string with an error.  The random source is passed in and
    returned. *)
Definition GenerateFromPassword (rand : io.Reader) (pass : list byte)
    (p : option Params) : (string * option error) * io.Reader :=
  let p := match p with
           | None => defaultParams (* We will use default configuration here. *)
           | Some p => p
           end in
  (* Generate the salt. *)
  match io.ReadFull rand (Z.to_nat (SaltLength p)) with
  | (Err err, rand') => ((EmptyString, Some err), rand')
  | (Ok unencodedSalt, rand') =>
      (* Generate the hashed password. *)
      let hash :=
        IDKey pass unencodedSalt (Iterations p) (Memory p) (Parallelism p)
              (KeyLength p) in
      (* Generate the string representation. *)
      let encodedSalt := base64.EncodeToString unencodedSalt in
      let encodedHash := base64.EncodeToString hash in
      ((fmt.Sprintf "$argon2id$v=%d$m=%d,t=%d,p=%d$%s$%s"
          [fmt.Int argon2.Version; fmt.Uint32 (Memory p);
           fmt.Uint32 (Iterations p); fmt.Uint8 (Parallelism p);
           fmt.Str encodedSalt; fmt.Str encodedHash],
        None), rand')
  end.

End Primitive.

End argon2id.

(** ** The records of the package's tests, and stand-ins to run them *)

Module tests.

(** "Must yield to successful comparison". *)
Definition validRecord : string :=
  "$argon2id$v=19$m=4096,t=3,p=1$82XldKYgqAqher7EuFzPNw$O1Epnr+m1JYkgtWcgVLID39ro6He105HTFnE+SinJyM".

(** "Not an argon2id hash". *)
Definition notArgon2id : string :=
  "$argon2i$v=19$m=4096,t=3,p=1$82XldKYgqAqher7EuFzPNw$O1Epnr+m1JYkgtWcgVLID39ro6He105HTFnE+SinJyM".

(** "Invalid hash format": the version clause is missing. *)
Definition invalidFormat : string :=
  "$argon2id$m=4096,t=3,p=1$82XldKYgqAqher7EuFzPNw$O1Epnr+m1JYkgtWcgVLID39ro6He105HTFnE+SinJyM".

(** The parameters of [TestGenerateFromPassword]. *)
Definition generateParams : argon2id.Params :=
  {| argon2id.Memory := 4096; argon2id.Iterations := 1000;
     argon2id.Parallelism := 0;
     argon2id.SaltLength := 32; argon2id.KeyLength := 64 |}.

(** The password of the tests, [foo123]. *)
Definition password : list byte := [x66; x6f; x6f; x31; x32; x33].

(** A stand-in for the primitive, to run the package on: the first
    [keyLen] bytes of password, salt and padding. *)
Definition toyKey (pass salt : list byte) (t m par keyLen : Z) : list byte :=
  firstn (Z.to_nat keyLen) (pass ++ salt ++ repeat x2a (Z.to_nat keyLen))%list.

(** A random source holding forty bytes. *)
Definition entropy : io.Reader := map Zbyte (map Z.of_nat (seq 1 40)).

End tests.

(** ** Vocabulary of the statements *)

(** The values the library makes: none of the package's sentinels. *)
Definition fromLibrary (e : error) : Prop :=
  match e with
  | ErrInvalidHash | ErrIncompatibleVersion | ErrPasswordNotMatch => False
  | _ => True
  end.

(** The values [Sscanf] stores fit the types of its operands. *)
Definition fits (x : fmt.operand) (v : Z) : Prop :=
  match x with
  | fmt.IntPtr => - 2 ^ 63 <= v < 2 ^ 63
  | fmt.Uint32Ptr => 0 <= v < 2 ^ 32
  | fmt.Uint8Ptr => 0 <= v < 2 ^ 8
  end.

(** The parameters [GenerateFromPassword] works with. *)
Definition effective (p : option argon2id.Params) : argon2id.Params :=
  match p with
  | None => argon2id.defaultParams
  | Some p => p
  end.

(** Every character of [s] satisfies [P]. *)
Fixpoint allOf (P : ascii -> bool) (s : string) : bool :=
  match s with
  | EmptyString => true
  | String c rest => P c && allOf P rest
  end.

(** The standard base64 alphabet: letters, digits, plus and slash. *)
Definition stdAlphabet (c : ascii) : bool :=
  let b := asciiZ c in
  ((65 <=? b) && (b <=? 90)) || ((97 <=? b) && (b <=? 122)) ||
  ((48 <=? b) && (b <=? 57)) || (b =? 43) || (b =? 47).

(** A decimal digit. *)
Definition isDigit (c : ascii) : bool :=
  (48 <=? asciiZ c) && (asciiZ c <=? 57).

(** The number a string of decimal digits denotes, continuing from [n]. *)
Fixpoint valueFrom (n : Z) (s : string) : Z :=
  match s with
  | EmptyString => n
  | String c rest => valueFrom (n * 10 + (asciiZ c - 48)) rest
  end.

(** The number a string of decimal digits denotes. *)
Definition decimalValue (s : string) : Z := valueFrom 0 s.

(** The runes of a string of ASCII characters: its bytes. *)
Fixpoint asciiRunes (s : string) : list Z :=
  match s with
  | EmptyString => []
  | String c rest => asciiZ c :: asciiRunes rest
  end.

(** A byte below [utf8.RuneSelf]. *)
Definition isASCII (c : ascii) : bool := asciiZ c <? 0x80.

(** The runes at which a number ends: the end of the input, or a rune
    that is no decimal digit. *)
Definition stops (rest : list Z) : Prop :=
  match rest with
  | [] => True
  | r :: _ => (48 <=? r) && (r <=? 57) = false
  end.

(** The width of the type an operand points to. *)
Definition bitsOf (x : fmt.operand) : Z :=
  match x with
  | fmt.IntPtr => 64
  | fmt.Uint32Ptr => 32
  | fmt.Uint8Ptr => 8
  end.

(** No zero in front of a numeral of two or more digits. *)
Definition noLeadingZero (ds : string) : bool :=
  match ds with
  | String c (String _ _) => negb (Ascii.eqb c "0")
  | _ => true
  end.

(** [ds] is the decimal rendering of [v]. *)
Definition decimalOf (v : Z) (ds : string) : Prop :=
  ds <> EmptyString /\ allOf isDigit ds = true /\ noLeadingZero ds = true /\
  decimalValue ds = v.

(** [s] is [bytes] in base64 with the standard alphabet and no padding:
    only letters, digits, plus and slash, as many characters as the bits
    of [bytes] need, and decoding [s] gives [bytes]. *)
Definition rawStdOf (bytes : list byte) (s : string) : Prop :=
  allOf stdAlphabet s = true /\
  Z.of_nat (String.length s) = (8 * Z.of_nat (List.length bytes) + 5) / 6 /\
  base64.DecodeString s = Ok bytes.

(** ** Vocabulary of the further properties *)

(** The primitive returns keys of the length it is asked for. *)
Definition keysHaveLength
    (IDKey : list byte -> list byte -> Z -> Z -> Z -> Z -> list byte) : Prop :=
  forall (pw salt : list byte) (t m par keyLen : Z),
    0 <= keyLen < 2 ^ 32 ->
    Z.of_nat (List.length (IDKey pw salt t m par keyLen)) = keyLen.

(** A string that does not begin with a decimal digit. *)
Definition endsNumber (junk : string) : Prop :=
  match junk with
  | EmptyString => True
  | String c _ => isDigit c = false
  end.

(** A non-empty string of decimal digits that denotes a value below
    [bound]; leading zeros are allowed.  The bound on the length keeps a
    clause within the number of runes one call of [Sscanf] reads. *)
Definition numeralBelow (bound : Z) (ds : string) : Prop :=
  ds <> EmptyString /\ allOf isDigit ds = true /\ decimalValue ds < bound /\
  Z.of_nat (String.length ds) <= 2 ^ 28.

(** What [decodeHash] does with the segments before the salt: the count
    of segments, the version clause, the tag and the parameter clause. *)
Definition decodeClauses (front : string) : result (Z * Z * Z) :=
  let elems := strings.Split front "$" in
  if negb (Nat.eqb (List.length elems) 4) then Err ErrInvalidHash
  else
    vs <- fmt.Sscanf (nth 2 elems "") "v=%d" [fmt.IntPtr] ;;
    if negb (String.eqb (nth 1 elems "") "argon2id")
       || negb (nth 0 vs 0 =? argon2.Version)
    then Err ErrIncompatibleVersion
    else
      ps <- fmt.Sscanf (nth 3 elems "") "m=%d,t=%d,p=%d"
              [fmt.Uint32Ptr; fmt.Uint32Ptr; fmt.Uint8Ptr] ;;
      Ok (nth 0 ps 0, nth 1 ps 0, nth 2 ps 0).

(** A carriage return or a line feed. *)
Definition isLineBreak (c : ascii) : bool :=
  Ascii.eqb c "010" || Ascii.eqb c "013".

(** A byte that is neither of the alphabet nor a line break. *)
Definition foreign (c : ascii) : bool :=
  negb (stdAlphabet c) && negb (isLineBreak c).

(** The characters a record is written with: letters, digits, plus and
    slash, and the three marks of the format. *)
Definition recordChar (c : ascii) : bool :=
  stdAlphabet c || Ascii.eqb c "$" || Ascii.eqb c "=" || Ascii.eqb c ",".

(** Closes the side conditions of a concrete instance. *)
Ltac concrete :=
  unfold numeralBelow, argon2id.wellTyped;
  repeat split; try discriminate; try reflexivity; try exact I;
  try (vm_compute; congruence).

(** * Proofs *)

(** ** Basic facts *)

Lemma byteZ_range (b : byte) : 0 <= byteZ b < 256.
Proof.
  unfold byteZ. pose proof (Byte.to_N_bounded b). lia.
Qed.

Lemma Zbyte_byteZ (b : byte) : Zbyte (byteZ b) = b.
Proof.
  unfold Zbyte, uint8. pose proof (byteZ_range b) as Hr.
  rewrite Z.mod_small by (simpl; lia).
  unfold byteZ. rewrite N2Z.id, Byte.of_to_N. reflexivity.
Qed.

Lemma asciiZ_range (c : ascii) : 0 <= asciiZ c < 256.
Proof.
  unfold asciiZ. pose proof (N_ascii_bounded c). lia.
Qed.

Lemma Zascii_asciiZ (c : ascii) : Zascii (asciiZ c) = c.
Proof.
  unfold Zascii, uint8. pose proof (asciiZ_range c) as Hr.
  rewrite Z.mod_small by (simpl; lia).
  unfold asciiZ. rewrite N2Z.id. apply ascii_N_embedding.
Qed.

Lemma asciiZ_inj (c d : ascii) : asciiZ c = asciiZ d -> c = d.
Proof.
  intros H. rewrite <- (Zascii_asciiZ c), <- (Zascii_asciiZ d). now rewrite H.
Qed.

(** *** Splitting *)

Lemma Split_length (s : string) (sep : ascii) :
  List.length (strings.Split s sep) = S (strings.Count s sep).
Proof.
  induction s as [|c rest IH]; simpl; [reflexivity|].
  destruct (Ascii.eqb c sep); simpl.
  - now rewrite IH.
  - destruct (strings.Split rest sep) as [|seg segs]; simpl in *; lia.
Qed.

Lemma Split_no_sep (s : string) (sep : ascii) :
  strings.Contains s sep = false -> strings.Split s sep = [s].
Proof.
  induction s as [|c rest IH]; simpl; [reflexivity|].
  intros H. apply orb_false_iff in H as [Hc Hr].
  rewrite Hc, (IH Hr). reflexivity.
Qed.

Lemma Split_app_sep (a b : string) (sep : ascii) :
  strings.Contains a sep = false ->
  strings.Split (a ++ String sep b) sep = a :: strings.Split b sep.
Proof.
  induction a as [|c rest IH]; simpl; intros H.
  - now rewrite Ascii.eqb_refl.
  - apply orb_false_iff in H as [Hc Hr].
    rewrite Hc, (IH Hr). reflexivity.
Qed.

Lemma Contains_app (a b : string) (c : ascii) :
  strings.Contains (a ++ b) c = strings.Contains a c || strings.Contains b c.
Proof.
  induction a as [|d rest IH]; simpl; [reflexivity|].
  now rewrite IH, orb_assoc.
Qed.

(** *** Constant-time comparison *)

Lemma lor_lxor_range (v a b : Z) :
  0 <= v < 256 -> 0 <= a < 256 -> 0 <= b < 256 ->
  0 <= Z.lor v (Z.lxor a b) < 256.
Proof.
  intros Hv Ha Hb.
  assert (Hx : 0 <= Z.lxor a b) by (apply Z.lxor_nonneg; lia).
  assert (Hl : 0 <= Z.lor v (Z.lxor a b)) by (apply Z.lor_nonneg; lia).
  split; [exact Hl|].
  destruct (Z.eq_dec (Z.lor v (Z.lxor a b)) 0) as [E|NE]; [lia|].
  change 256 with (2 ^ 8). apply Z.log2_lt_pow2; [lia|].
  rewrite Z.log2_lor by lia.
  assert (Hlx : Z.log2 (Z.lxor a b) <= Z.max (Z.log2 a) (Z.log2 b))
    by (apply Z.log2_lxor; lia).
  assert (Hbound : forall z, 0 <= z < 256 -> Z.log2 z < 8).
  { intros z Hz. destruct (Z.eq_dec z 0) as [->|]; [simpl; lia|].
    apply Z.log2_lt_pow2; [lia|]. simpl; lia. }
  pose proof (Hbound v Hv). pose proof (Hbound a Ha). pose proof (Hbound b Hb).
  lia.
Qed.

Lemma accumulate_range (x y : list byte) (v : Z) :
  0 <= v < 256 -> 0 <= subtle.accumulate v x y < 256.
Proof.
  revert y v. induction x as [|a x IH]; intros [|b y] v Hv; simpl; try exact Hv.
  apply IH. apply lor_lxor_range; auto using byteZ_range.
Qed.

Lemma byteZ_inj (a b : byte) : byteZ a = byteZ b -> a = b.
Proof.
  intros H. rewrite <- (Zbyte_byteZ a), <- (Zbyte_byteZ b). now rewrite H.
Qed.

Lemma accumulate_zero (x y : list byte) (v : Z) :
  List.length x = List.length y ->
  (subtle.accumulate v x y = 0 <-> v = 0 /\ x = y).
Proof.
  revert y v. induction x as [|a x IH]; intros [|b y] v Hlen; simpl in *;
    try discriminate.
  - intuition.
  - injection Hlen as Hlen. rewrite (IH y _ Hlen), Z.lor_eq_0_iff, Z.lxor_eq_0_iff.
    split.
    + intros [[Hv Hab] Hxy]. apply byteZ_inj in Hab. subst. auto.
    + intros [Hv Hxy]. injection Hxy as -> ->. auto.
Qed.

Lemma ConstantTimeByteEq_zero (v : Z) :
  0 <= v < 256 ->
  subtle.ConstantTimeByteEq v 0 = (if Z.eqb v 0 then 1 else 0).
Proof.
  intros Hv. unfold subtle.ConstantTimeByteEq, uint32.
  rewrite Z.lxor_0_r, Z.shiftr_div_pow2 by lia.
  destruct (Z.eqb_spec v 0) as [->|NE].
  - reflexivity.
  - rewrite (Z.mod_small v) by lia.
    rewrite (Z.mod_small (v - 1)) by lia.
    apply Z.div_small. lia.
Qed.

Lemma ConstantTimeCompare_spec (x y : list byte) :
  subtle.ConstantTimeCompare x y = (if list_eq_dec Byte.byte_eq_dec x y then 1 else 0).
Proof.
  unfold subtle.ConstantTimeCompare.
  destruct (Nat.eqb_spec (List.length x) (List.length y)) as [Hlen|Hlen]; simpl.
  - rewrite ConstantTimeByteEq_zero by (apply accumulate_range; lia).
    pose proof (accumulate_zero x y 0 Hlen) as Hz.
    destruct (Z.eqb_spec (subtle.accumulate 0 x y) 0) as [E|NE];
      destruct (list_eq_dec Byte.byte_eq_dec x y) as [Exy|Nxy]; auto.
    + apply Hz in E. tauto.
    + exfalso. apply NE, Hz. auto.
  - destruct (list_eq_dec Byte.byte_eq_dec x y) as [Exy|Nxy]; auto.
    subst. congruence.
Qed.

(** ** Errors raised inside the standard library *)

Lemma bind_Ok {A B : Type} (r : result A) (k : A -> result B) (b : B) :
  bind r k = Ok b -> exists a, r = Ok a /\ k a = Ok b.
Proof.
  destruct r as [a|e]; simpl; intros H; [eauto | discriminate].
Qed.

Lemma bind_Err {A B : Type} (r : result A) (k : A -> result B) (e : error) :
  bind r k = Err e -> r = Err e \/ exists a, r = Ok a /\ k a = Err e.
Proof.
  destruct r as [a|e']; simpl; intros H; [right; eauto | left; congruence].
Qed.

(** Splits a failing [bind]: either its first part failed, or it gave
    the value [x] and the rest failed. *)
Ltac bind_err H x :=
  let Hx := fresh "H" x in
  apply bind_Err in H as [H | (x & Hx & H)].

Lemma skipRunes_fromLibrary (input : list Z) (n : Z) (e : error) :
  fmt.skipRunes input n = Err e -> fromLibrary e.
Proof.
  revert n. induction input as [|r rest IH]; intros n; simpl; [discriminate|].
  destruct (fmt.hugeWid <=? n); [discriminate|].
  destruct ((r =? 13) && _); [apply IH|].
  destruct (r =? 10); [intros [= <-]; exact I|].
  destruct (negb (fmt.isSpace r)); [discriminate | apply IH].
Qed.

Lemma notEOF_fromLibrary (s : fmt.ss) (e : error) :
  fmt.notEOF s = Err e -> fromLibrary e.
Proof.
  unfold fmt.notEOF. destruct (fmt.ReadRune s); [discriminate|].
  intros [= <-]; exact I.
Qed.

Lemma getBase_fromLibrary (verb : ascii) (e : error) :
  fmt.getBase verb = Err e -> fromLibrary e.
Proof.
  unfold fmt.getBase. destruct (Ascii.eqb verb "d"); [discriminate|].
  intros [= <-]; exact I.
Qed.

Lemma scanNumber_fromLibrary (digits buf : string) (s : fmt.ss) (e : error) :
  fmt.scanNumber digits buf s = Err e -> fromLibrary e.
Proof.
  unfold fmt.scanNumber. intros H. bind_err H u.
  - eapply notEOF_fromLibrary; eauto.
  - destruct (fmt.accept digits buf s) as [[[] ?] ?]; [discriminate|].
    injection H as <-; exact I.
Qed.

Lemma ParseUint_fromLibrary (s : string) (bitSize : Z) (e : error) :
  strconv.ParseUint s bitSize = Err e -> fromLibrary e.
Proof.
  unfold strconv.ParseUint.
  destruct (strconv.parseUint s bitSize) as [n [why|]]; [|discriminate].
  intros [= <-]; exact I.
Qed.

Lemma ParseInt_fromLibrary (s : string) (bitSize : Z) (e : error) :
  strconv.ParseInt s bitSize = Err e -> fromLibrary e.
Proof.
  unfold strconv.ParseInt. destruct s as [|c rest]; [intros [= <-]; exact I|].
  destruct (strconv.parseUint _ bitSize) as [un [[]|]];
    repeat match goal with
           | |- context [if ?b then _ else _] => destruct b
           end;
    try discriminate; intros [= <-]; exact I.
Qed.

Lemma scanInt_fromLibrary (verb : ascii) (bitSize : Z) (s : fmt.ss) (e : error) :
  fmt.scanInt verb bitSize s = Err e -> fromLibrary e.
Proof.
  unfold fmt.scanInt, fmt.SkipSpace. intros H.
  bind_err H s1; [eapply skipRunes_fromLibrary; eauto|].
  bind_err H u1; [eapply notEOF_fromLibrary; eauto|].
  bind_err H u2; [eapply getBase_fromLibrary; eauto|].
  destruct (fmt.accept fmt.sign "" s1) as [[? buf] s2].
  bind_err H ts; [eapply scanNumber_fromLibrary; eauto|].
  destruct ts as [tok s3].
  bind_err H i; [eapply ParseInt_fromLibrary; eauto|].
  destruct (negb _); [injection H as <-; exact I | discriminate].
Qed.

Lemma scanUint_fromLibrary (verb : ascii) (bitSize : Z) (s : fmt.ss) (e : error) :
  fmt.scanUint verb bitSize s = Err e -> fromLibrary e.
Proof.
  unfold fmt.scanUint, fmt.SkipSpace. intros H.
  bind_err H s1; [eapply skipRunes_fromLibrary; eauto|].
  bind_err H u1; [eapply notEOF_fromLibrary; eauto|].
  bind_err H u2; [eapply getBase_fromLibrary; eauto|].
  bind_err H ts; [eapply scanNumber_fromLibrary; eauto|].
  destruct ts as [tok s3].
  bind_err H i; [eapply ParseUint_fromLibrary; eauto|].
  destruct (negb _); [injection H as <-; exact I | discriminate].
Qed.

Lemma scanOne_fromLibrary (verb : ascii) (arg : fmt.operand) (s : fmt.ss) (e : error) :
  fmt.scanOne verb arg s = Err e -> fromLibrary e.
Proof.
  destruct arg; simpl; intros H; bind_err H vs;
    eauto using scanInt_fromLibrary, scanUint_fromLibrary;
    destruct vs; discriminate.
Qed.

Lemma doScanf_fromLibrary (format : string) (a : list fmt.operand) (s : fmt.ss)
    (e : error) :
  fmt.doScanf format a s = Err e -> fromLibrary e.
Proof.
  revert a s. induction format as [format IH] using
    (well_founded_induction (well_founded_ltof _ String.length)).
  intros a s. destruct format as [|c rest]; simpl.
  - destruct a; [discriminate | intros [= <-]; exact I].
  - destruct (Ascii.eqb c "%").
    + destruct rest as [|verb rest']; [intros [= <-]; exact I|].
      intros H. unfold fmt.SkipSpace in H.
      bind_err H s1; [eapply skipRunes_fromLibrary; eauto|].
      destruct a as [|arg a']; [injection H as <-; exact I|].
      bind_err H vs; [eapply scanOne_fromLibrary; eauto|].
      destruct vs as [v s2].
      bind_err H vs; [|discriminate].
      eapply (IH rest'); [|exact H]. unfold ltof; simpl; lia.
    + destruct (fmt.ReadRune s) as [[r s']|]; [|intros [= <-]; exact I].
      destruct (r =? asciiZ c); [|intros [= <-]; exact I].
      apply (IH rest). unfold ltof; simpl; lia.
Qed.

Lemma Sscanf_fromLibrary (str format : string) (a : list fmt.operand) (e : error) :
  fmt.Sscanf str format a = Err e -> fromLibrary e.
Proof. apply doScanf_fromLibrary. Qed.

Lemma decode_fromLibrary (src : string) (si : Z) (dbuf : list Z) (out : list byte)
    (e : error) :
  base64.decode src si dbuf out = Err e -> fromLibrary e.
Proof.
  revert si dbuf out. induction src as [|c rest IH]; intros si dbuf out; simpl.
  - destruct dbuf as [|? [|? ?]]; try discriminate. intros [= <-]; exact I.
  - destruct (negb (base64.decodeMap c =? 255)).
    + destruct (Nat.eqb _ 4); apply IH.
    + destruct (_ || _); [apply IH | intros [= <-]; exact I].
Qed.

Lemma DecodeString_fromLibrary (s : string) (e : error) :
  base64.DecodeString s = Err e -> fromLibrary e.
Proof. apply decode_fromLibrary. Qed.

(** ** The shape of what [Sscanf] returns *)

Lemma doScanf_length (format : string) (a : list fmt.operand) (s : fmt.ss)
    (vs : list Z) :
  fmt.doScanf format a s = Ok vs -> List.length vs = List.length a.
Proof.
  revert a s vs. induction format as [format IH] using
    (well_founded_induction (well_founded_ltof _ String.length)).
  intros a s vs. destruct format as [|c rest]; simpl.
  - destruct a; [intros [= <-]; reflexivity | discriminate].
  - destruct (Ascii.eqb c "%").
    + destruct rest as [|verb rest']; [discriminate|].
      intros H. apply bind_Ok in H as (s1 & _ & H).
      destruct a as [|arg a']; [discriminate|].
      apply bind_Ok in H as ([v s2] & _ & H).
      apply bind_Ok in H as (vs' & Hvs & H). injection H as <-.
      simpl. f_equal. eapply (IH rest'); [|exact Hvs]. unfold ltof; simpl; lia.
    + destruct (fmt.ReadRune s) as [[r s']|]; [|discriminate].
      destruct (r =? asciiZ c); [|discriminate].
      apply (IH rest). unfold ltof; simpl; lia.
Qed.

Lemma Sscanf_one (str format : string) (x : fmt.operand) (vs : list Z) :
  fmt.Sscanf str format [x] = Ok vs -> exists v, vs = [v].
Proof.
  intros H. apply doScanf_length in H.
  destruct vs as [|v [|? ?]]; try discriminate. eauto.
Qed.

Lemma Sscanf_three (str format : string) (x y z : fmt.operand) (vs : list Z) :
  fmt.Sscanf str format [x; y; z] = Ok vs -> exists u v w, vs = [u; v; w].
Proof.
  intros H. apply doScanf_length in H.
  destruct vs as [|u [|v [|w [|? ?]]]]; try discriminate. eauto.
Qed.

(** ** [decodeHash], segment by segment *)

Lemma length_six {A : Type} (l : list A) :
  List.length l = 6%nat -> exists e0 e1 e2 e3 e4 e5, l = [e0; e1; e2; e3; e4; e5].
Proof.
  destruct l as [|e0 [|e1 [|e2 [|e3 [|e4 [|e5 [|? ?]]]]]]]; try discriminate.
  intros _. do 6 eexists. reflexivity.
Qed.

Lemma decodeHash_wrong_count (hash : string) :
  List.length (strings.Split hash "$") <> 6%nat ->
  argon2id.decodeHash hash = Err ErrInvalidHash.
Proof.
  intros H. unfold argon2id.decodeHash.
  destruct (Nat.eqb_spec (List.length (strings.Split hash "$")) 6); [contradiction|].
  reflexivity.
Qed.

Lemma decodeHash_six (hash e0 e1 e2 e3 e4 e5 : string) :
  strings.Split hash "$" = [e0; e1; e2; e3; e4; e5] ->
  argon2id.decodeHash hash =
    (vs <- fmt.Sscanf e2 "v=%d" [fmt.IntPtr] ;;
     if negb (String.eqb e1 "argon2id") || negb (nth 0 vs 0 =? argon2.Version)
     then Err ErrIncompatibleVersion
     else
       ps <- fmt.Sscanf e3 "m=%d,t=%d,p=%d"
               [fmt.Uint32Ptr; fmt.Uint32Ptr; fmt.Uint8Ptr] ;;
       salt <- base64.DecodeString e4 ;;
       hashedPassword <- base64.DecodeString e5 ;;
       Ok ({| argon2id.Memory := nth 0 ps 0;
              argon2id.Iterations := nth 1 ps 0;
              argon2id.Parallelism := nth 2 ps 0;
              argon2id.SaltLength := uint32 (Z.of_nat (List.length salt));
              argon2id.KeyLength := uint32 (Z.of_nat (List.length hashedPassword)) |},
           salt, hashedPassword)).
Proof.
  intros H. unfold argon2id.decodeHash. rewrite H. reflexivity.
Qed.

(** Past the version check, only the library can fail. *)
Lemma decodeHash_tail_fromLibrary (e3 e4 e5 : string) (e : error) :
  (ps <- fmt.Sscanf e3 "m=%d,t=%d,p=%d"
           [fmt.Uint32Ptr; fmt.Uint32Ptr; fmt.Uint8Ptr] ;;
   salt <- base64.DecodeString e4 ;;
   hashedPassword <- base64.DecodeString e5 ;;
   Ok ({| argon2id.Memory := nth 0 ps 0;
          argon2id.Iterations := nth 1 ps 0;
          argon2id.Parallelism := nth 2 ps 0;
          argon2id.SaltLength := uint32 (Z.of_nat (List.length salt));
          argon2id.KeyLength := uint32 (Z.of_nat (List.length hashedPassword)) |},
       salt, hashedPassword)) = Err e ->
  fromLibrary e.
Proof.
  intros H.
  bind_err H ps; [eapply Sscanf_fromLibrary; eauto|].
  bind_err H salt; [eapply DecodeString_fromLibrary; eauto|].
  bind_err H key; [eapply DecodeString_fromLibrary; eauto|].
  discriminate.
Qed.

(** Every failure of [decodeHash]: a wrong number of segments gives
    [ErrInvalidHash]; with six segments the error is
    [ErrIncompatibleVersion] or comes from the library. *)
Lemma decodeHash_errors (hash : string) (e : error) :
  argon2id.decodeHash hash = Err e ->
  (List.length (strings.Split hash "$") <> 6%nat /\ e = ErrInvalidHash) \/
  (List.length (strings.Split hash "$") = 6%nat /\
   (e = ErrIncompatibleVersion \/ fromLibrary e)).
Proof.
  intros H.
  destruct (Nat.eq_dec (List.length (strings.Split hash "$")) 6) as [E|NE].
  - right. split; [exact E|].
    destruct (length_six _ E) as (e0 & e1 & e2 & e3 & e4 & e5 & Hs).
    rewrite (decodeHash_six _ _ _ _ _ _ _ Hs) in H.
    bind_err H vs; [right; eapply Sscanf_fromLibrary; eauto|].
    destruct (negb (String.eqb e1 "argon2id") || negb (nth 0 vs 0 =? argon2.Version)).
    + left. congruence.
    + right. eapply decodeHash_tail_fromLibrary; eauto.
  - left. split; [exact NE|].
    rewrite (decodeHash_wrong_count _ NE) in H. congruence.
Qed.

Lemma decodeHash_never_mismatch (hash : string) :
  argon2id.decodeHash hash <> Err ErrPasswordNotMatch.
Proof.
  intros H. apply decodeHash_errors in H as [[_ H]|[_ [H|H]]];
    try discriminate; exact H.
Qed.

Lemma scanOne_fits (verb : ascii) (x : fmt.operand) (s s' : fmt.ss) (v : Z) :
  fmt.scanOne verb x s = Ok (v, s') -> fits x v.
Proof.
  destruct x; simpl; intros H; apply bind_Ok in H as ([i s1] & _ & H);
    injection H as <- _;
    unfold fmt.int64, uint32, uint8.
  - pose proof (Z.mod_pos_bound (i + 2 ^ 63) (2 ^ 64) ltac:(lia)). lia.
  - apply Z.mod_pos_bound. lia.
  - apply Z.mod_pos_bound. lia.
Qed.

Lemma doScanf_fits (format : string) (a : list fmt.operand) (s : fmt.ss)
    (vs : list Z) :
  fmt.doScanf format a s = Ok vs -> Forall2 fits a vs.
Proof.
  revert a s vs. induction format as [format IH] using
    (well_founded_induction (well_founded_ltof _ String.length)).
  intros a s vs. destruct format as [|c rest]; simpl.
  - destruct a; [intros [= <-]; constructor | discriminate].
  - destruct (Ascii.eqb c "%").
    + destruct rest as [|verb rest']; [discriminate|].
      intros H. apply bind_Ok in H as (s1 & _ & H).
      destruct a as [|x a']; [discriminate|].
      apply bind_Ok in H as ([v s2] & Hv & H).
      apply bind_Ok in H as (vs' & Hvs & H). injection H as <-.
      constructor; [eapply scanOne_fits; eauto|].
      eapply (IH rest'); [|exact Hvs]. unfold ltof; simpl; lia.
    + destruct (fmt.ReadRune s) as [[r s']|]; [|discriminate].
      destruct (r =? asciiZ c); [|discriminate].
      apply (IH rest). unfold ltof; simpl; lia.
Qed.

(** What a successful [decodeHash] went through. *)
Lemma decodeHash_Ok (hash : string) (p : argon2id.Params) (salt key : list byte) :
  argon2id.decodeHash hash = Ok (p, salt, key) ->
  exists e0 e1 e2 e3 e4 e5 m t par,
    strings.Split hash "$" = [e0; e1; e2; e3; e4; e5] /\
    e1 = "argon2id" /\
    fmt.Sscanf e2 "v=%d" [fmt.IntPtr] = Ok [argon2.Version] /\
    fmt.Sscanf e3 "m=%d,t=%d,p=%d" [fmt.Uint32Ptr; fmt.Uint32Ptr; fmt.Uint8Ptr]
      = Ok [m; t; par] /\
    base64.DecodeString e4 = Ok salt /\
    base64.DecodeString e5 = Ok key /\
    p = {| argon2id.Memory := m; argon2id.Iterations := t;
           argon2id.Parallelism := par;
           argon2id.SaltLength := uint32 (Z.of_nat (List.length salt));
           argon2id.KeyLength := uint32 (Z.of_nat (List.length key)) |}.
Proof.
  intros Hd.
  assert (Hl : List.length (strings.Split hash "$") = 6%nat).
  { destruct (Nat.eq_dec (List.length (strings.Split hash "$")) 6) as [E|NE];
      [exact E|].
    rewrite (decodeHash_wrong_count _ NE) in Hd. discriminate. }
  destruct (length_six _ Hl) as (e0 & e1 & e2 & e3 & e4 & e5 & Hs).
  rewrite (decodeHash_six _ _ _ _ _ _ _ Hs) in Hd.
  apply bind_Ok in Hd as (vs & Hv & Hd).
  destruct (Sscanf_one _ _ _ _ Hv) as [ver ->]. simpl in Hd.
  destruct (String.eqb_spec e1 "argon2id") as [E1|N1]; [|discriminate].
  destruct (Z.eqb_spec ver argon2.Version) as [E2|N2]; [|discriminate].
  simpl in Hd. apply bind_Ok in Hd as (ps & Hps & Hd).
  destruct (Sscanf_three _ _ _ _ _ _ Hps) as (m & t & par & ->).
  apply bind_Ok in Hd as (salt' & Hsalt & Hd).
  apply bind_Ok in Hd as (key' & Hkey & Hd).
  injection Hd as <- <- <-. subst ver.
  exists e0, e1, e2, e3, e4, e5, m, t, par. simpl. auto 10.
Qed.

(** ** The errors of [decodeHash] *)

(** C3. Decoding returns [ErrInvalidHash] if and only if splitting the
    record on the dollar sign yields a number of segments other than six;
    in particular a record of five segments yields [ErrInvalidHash]. *)
Theorem decodeHash_ErrInvalidHash_iff (hash : string) :
  (argon2id.decodeHash hash = Err ErrInvalidHash <->
   List.length (strings.Split hash "$") <> 6%nat) /\
  (List.length (strings.Split hash "$") = 5%nat ->
   argon2id.decodeHash hash = Err ErrInvalidHash).
Proof.
  assert (Hiff : argon2id.decodeHash hash = Err ErrInvalidHash <->
                 List.length (strings.Split hash "$") <> 6%nat).
  { split.
    - intros H. apply decodeHash_errors in H as [[NE _]|[_ [H|H]]];
        [exact NE | discriminate | destruct H].
    - apply decodeHash_wrong_count. }
  split; [exact Hiff|].
  intros H5. apply Hiff. rewrite H5. discriminate.
Qed.

(** The test record without version clause has five segments and is
    rejected with [ErrInvalidHash]. *)
Lemma decodeHash_ErrInvalidHash_five_segments :
  List.length (strings.Split tests.invalidFormat "$") = 5%nat /\
  argon2id.decodeHash tests.invalidFormat = Err ErrInvalidHash.
Proof.
  split; [reflexivity|].
  apply (proj2 (decodeHash_ErrInvalidHash_iff tests.invalidFormat)).
  reflexivity.
Defined.

(** C4. For a record of six segments whose version clause scans as
    [v=<integer>], decoding returns [ErrIncompatibleVersion] if and only
    if the algorithm tag differs from [argon2id] or the scanned version
    differs from [argon2.Version]. *)
Theorem decodeHash_ErrIncompatibleVersion_iff
    (hash e0 e1 e2 e3 e4 e5 : string) (vs : list Z) :
  strings.Split hash "$" = [e0; e1; e2; e3; e4; e5] ->
  fmt.Sscanf e2 "v=%d" [fmt.IntPtr] = Ok vs ->
  exists ver, vs = [ver] /\
    (argon2id.decodeHash hash = Err ErrIncompatibleVersion <->
     e1 <> "argon2id" \/ ver <> argon2.Version).
Proof.
  intros Hs Hv. destruct (Sscanf_one _ _ _ _ Hv) as [ver ->].
  exists ver. split; [reflexivity|].
  rewrite (decodeHash_six _ _ _ _ _ _ _ Hs), Hv. simpl.
  destruct (String.eqb_spec e1 "argon2id") as [E1|N1];
    destruct (Z.eqb_spec ver argon2.Version) as [E2|N2]; simpl.
  - split.
    + intros H. apply decodeHash_tail_fromLibrary in H. destruct H.
    + intros [H|H]; contradiction.
  - split; auto.
  - split; auto.
  - split; auto.
Qed.

(** The test record tagged [argon2i] is rejected with
    [ErrIncompatibleVersion], which is not [ErrInvalidHash]. *)
Lemma decodeHash_ErrIncompatibleVersion_argon2i :
  argon2id.decodeHash tests.notArgon2id = Err ErrIncompatibleVersion /\
  ErrIncompatibleVersion <> ErrInvalidHash.
Proof.
  destruct (decodeHash_ErrIncompatibleVersion_iff tests.notArgon2id
              "" "argon2i" "v=19" "m=4096,t=3,p=1" "82XldKYgqAqher7EuFzPNw"
              "O1Epnr+m1JYkgtWcgVLID39ro6He105HTFnE+SinJyM" [19]
              eq_refl eq_refl) as (ver & Hver & Hiff).
  split; [|discriminate].
  apply Hiff. left. discriminate.
Defined.

(** C10. Decoding never looks at the segment before the first dollar
    sign: when a record with an empty leading segment decodes, the record
    with any leading segment free of dollar signs still splits into six
    segments and decodes to the same parameters, salt and key. *)
Theorem decodeHash_leading_segment_ignored
    (junk rest : string) (r : argon2id.Params * list byte * list byte) :
  strings.Contains junk "$" = false ->
  argon2id.decodeHash (String "$" rest) = Ok r ->
  List.length (strings.Split (junk ++ String "$" rest) "$") = 6%nat /\
  argon2id.decodeHash (junk ++ String "$" rest) = Ok r.
Proof.
  intros Hj Hd.
  assert (Hl : List.length (strings.Split (String "$" rest) "$") = 6%nat).
  { destruct (Nat.eq_dec (List.length (strings.Split (String "$" rest) "$")) 6)
      as [E|NE]; [exact E|].
    rewrite (decodeHash_wrong_count _ NE) in Hd. discriminate. }
  destruct (length_six _ Hl) as (e0 & e1 & e2 & e3 & e4 & e5 & Hs).
  assert (Hs' : strings.Split (junk ++ String "$" rest) "$"
                = [junk; e1; e2; e3; e4; e5]).
  { rewrite (Split_app_sep junk rest "$" Hj).
    simpl in Hs. injection Hs as _ ->. reflexivity. }
  split; [rewrite Hs'; reflexivity|].
  rewrite <- Hd.
  rewrite (decodeHash_six _ _ _ _ _ _ _ Hs), (decodeHash_six _ _ _ _ _ _ _ Hs').
  reflexivity.
Qed.

(** The valid test record, with [junk] put before it. *)
Lemma decodeHash_leading_segment_junk :
  exists r,
    argon2id.decodeHash tests.validRecord = Ok r /\
    argon2id.decodeHash ("junk" ++ tests.validRecord) = Ok r.
Proof.
  destruct (argon2id.decodeHash tests.validRecord) as [r|e] eqn:Hd;
    [|vm_compute in Hd; discriminate].
  exists r. split; [reflexivity|].
  exact (proj2 (decodeHash_leading_segment_ignored "junk"
                  "argon2id$v=19$m=4096,t=3,p=1$82XldKYgqAqher7EuFzPNw$O1Epnr+m1JYkgtWcgVLID39ro6He105HTFnE+SinJyM"
                  r eq_refl Hd)).
Defined.

(** ** Verification *)

Section Verification.

Variable IDKey : list byte -> list byte -> Z -> Z -> Z -> Z -> list byte.

(** C5. [CompareHashAndPassword] returns a decode error unchanged; after
    a successful decode it derives a key from the candidate password with
    the decoded parameters and salt, returns [ErrPasswordNotMatch] exactly
    when that key and the stored key differ in length or content, and
    returns no error exactly when they are equal. *)
Theorem CompareHashAndPassword_outcomes (hash : string) (pass : list byte) :
  match argon2id.decodeHash hash with
  | Err e =>
      argon2id.CompareHashAndPassword IDKey hash pass = Some e /\
      e <> ErrPasswordNotMatch
  | Ok (p, salt, key) =>
      let userHash :=
        IDKey pass salt (argon2id.Iterations p) (argon2id.Memory p)
              (argon2id.Parallelism p) (argon2id.KeyLength p) in
      (argon2id.CompareHashAndPassword IDKey hash pass = Some ErrPasswordNotMatch <->
       List.length userHash <> List.length key \/ userHash <> key) /\
      (argon2id.CompareHashAndPassword IDKey hash pass = None <-> userHash = key)
  end.
Proof.
  unfold argon2id.CompareHashAndPassword.
  destruct (argon2id.decodeHash hash) as [[[p salt] key]|e] eqn:Hd.
  - cbv zeta. rewrite ConstantTimeCompare_spec.
    destruct (list_eq_dec Byte.byte_eq_dec _ key) as [E|NE]; simpl.
    + split; split; try discriminate; auto.
      intros [H|H]; [rewrite E in H|]; contradiction.
    + split; split; try discriminate; auto. intros H; contradiction.
  - split; [reflexivity|].
    intros ->. exact (decodeHash_never_mismatch _ Hd).
Qed.

End Verification.

(** ** The parameters of a decoded record *)

(** C7. On a successful decode the parameters carry the memory, the
    iterations and the parallelism scanned from the parameter clause, and
    the salt length and key length are the lengths of the decoded salt and
    key, converted to [uint32]; they equal those lengths whenever the
    lengths fit 32 bits.  The valid test record decodes with memory 4096,
    iterations 3 and parallelism 1. *)
Theorem decodeHash_parameters :
  (forall (hash : string) (p : argon2id.Params) (salt key : list byte),
      argon2id.decodeHash hash = Ok (p, salt, key) ->
      exists e0 e1 e2 e3 e4 e5,
        strings.Split hash "$" = [e0; e1; e2; e3; e4; e5] /\
        fmt.Sscanf e3 "m=%d,t=%d,p=%d" [fmt.Uint32Ptr; fmt.Uint32Ptr; fmt.Uint8Ptr]
          = Ok [argon2id.Memory p; argon2id.Iterations p; argon2id.Parallelism p] /\
        base64.DecodeString e4 = Ok salt /\
        base64.DecodeString e5 = Ok key /\
        argon2id.SaltLength p = uint32 (Z.of_nat (List.length salt)) /\
        argon2id.KeyLength p = uint32 (Z.of_nat (List.length key)) /\
        (Z.of_nat (List.length salt) < 2 ^ 32 ->
         argon2id.SaltLength p = Z.of_nat (List.length salt)) /\
        (Z.of_nat (List.length key) < 2 ^ 32 ->
         argon2id.KeyLength p = Z.of_nat (List.length key))) /\
  (exists (p : argon2id.Params) (salt key : list byte),
      argon2id.decodeHash tests.validRecord = Ok (p, salt, key) /\
      argon2id.Memory p = 4096 /\ argon2id.Iterations p = 3 /\
      argon2id.Parallelism p = 1).
Proof.
  split.
  - intros hash p salt key Hd.
    destruct (decodeHash_Ok _ _ _ _ Hd)
      as (e0 & e1 & e2 & e3 & e4 & e5 & m & t & par
          & Hs & _ & _ & Hps & Hsalt & Hkey & ->).
    exists e0, e1, e2, e3, e4, e5. simpl.
    repeat split; auto; intros Hlt; unfold uint32; apply Z.mod_small; lia.
  - destruct (argon2id.decodeHash tests.validRecord) as [[[p salt] key]|e] eqn:Hd;
      [|vm_compute in Hd; discriminate].
    exists p, salt, key. split; [reflexivity|].
    vm_compute in Hd. injection Hd as <- _ _. repeat split; reflexivity.
Qed.

(** The valid test record: its salt has 16 bytes, its key 32, and the
    decoded parameters say so. *)
Lemma decodeHash_parameters_validRecord :
  exists (p : argon2id.Params) (salt key : list byte),
    argon2id.decodeHash tests.validRecord = Ok (p, salt, key) /\
    argon2id.SaltLength p = 16 /\ List.length salt = 16%nat /\
    argon2id.KeyLength p = 32 /\ List.length key = 32%nat.
Proof.
  destruct (argon2id.decodeHash tests.validRecord) as [[[p salt] key]|e] eqn:Hd;
    [|vm_compute in Hd; discriminate].
  exists p, salt, key.
  destruct (proj1 decodeHash_parameters _ _ _ _ Hd)
    as (e0 & e1 & e2 & e3 & e4 & e5 & _ & _ & _ & _ & _ & _ & Hsl & Hkl).
  vm_compute in Hd. injection Hd as <- <- <-.
  repeat split; reflexivity.
Defined.

(** A successful decode yields parameters that fit their Go types. *)
Lemma decodeHash_fits_types
    (hash : string) (p : argon2id.Params) (salt key : list byte) :
  argon2id.decodeHash hash = Ok (p, salt, key) -> argon2id.wellTyped p.
Proof.
  intros Hd.
  destruct (decodeHash_Ok _ _ _ _ Hd)
    as (e0 & e1 & e2 & e3 & e4 & e5 & m & t & par
        & _ & _ & _ & Hps & _ & _ & ->).
  apply doScanf_fits in Hps.
  inversion Hps as [|? ? ? ? Hm Hps1]; subst.
  inversion Hps1 as [|? ? ? ? Ht Hps2]; subst.
  inversion Hps2 as [|? ? ? ? Hp _]; subst.
  unfold argon2id.wellTyped, uint32; simpl in *.
  pose proof (Z.mod_pos_bound (Z.of_nat (List.length salt)) (2 ^ 32) ltac:(lia)).
  pose proof (Z.mod_pos_bound (Z.of_nat (List.length key)) (2 ^ 32) ltac:(lia)).
  lia.
Qed.

(** C6, as the claim has it, fails: the valid test record with its
    parallelism set to zero decodes, and so does a record whose fields are
    all zero; the parameters of the package's own generation test are not
    all positive either. *)
Lemma decodeHash_accepts_zero_parallelism :
  (exists (p : argon2id.Params) (salt key : list byte),
      argon2id.decodeHash
        "$argon2id$v=19$m=4096,t=3,p=0$82XldKYgqAqher7EuFzPNw$O1Epnr+m1JYkgtWcgVLID39ro6He105HTFnE+SinJyM"
        = Ok (p, salt, key) /\
      argon2id.Parallelism p = 0 /\ ~ argon2id.allPositive p) /\
  (exists (p : argon2id.Params) (salt key : list byte),
      argon2id.decodeHash "$argon2id$v=19$m=0,t=0,p=0$$" = Ok (p, salt, key) /\
      p = argon2id.mkParams 0 0 0 0 0) /\
  ~ argon2id.allPositive tests.generateParams.
Proof.
  split; [|split].
  - eexists _, _, _. split; [vm_compute; reflexivity|].
    split; [reflexivity|].
    unfold argon2id.allPositive; simpl. lia.
  - eexists _, _, _. split; [vm_compute; reflexivity|]. reflexivity.
  - unfold argon2id.allPositive; simpl. lia.
Qed.

(** ** The record written by [Sprintf] *)

Lemma append_empty_r (s : string) : s ++ "" = s.
Proof.
  induction s as [|c s IH]; simpl; [reflexivity | now rewrite IH].
Qed.

Lemma append_assoc (a b c : string) : (a ++ b) ++ c = a ++ (b ++ c).
Proof.
  induction a as [|x a IH]; simpl; [reflexivity | now rewrite IH].
Qed.

(** The format of the package, applied to its six operands. *)
Lemma Sprintf_record (v m t p : Z) (salt key : string) :
  fmt.Sprintf "$argon2id$v=%d$m=%d,t=%d,p=%d$%s$%s"
    [fmt.Int v; fmt.Uint32 m; fmt.Uint32 t; fmt.Uint8 p; fmt.Str salt; fmt.Str key]
  = "$argon2id$v=" ++ fmt.fmtInteger v ++ "$m=" ++ fmt.fmtInteger m
      ++ ",t=" ++ fmt.fmtInteger t ++ ",p=" ++ fmt.fmtInteger p
      ++ "$" ++ salt ++ "$" ++ key.
Proof.
  unfold fmt.Sprintf. cbn -[fmt.fmtInteger].
  rewrite append_empty_r. reflexivity.
Qed.

(** ** Generation *)

Section Generation.

Variable IDKey : list byte -> list byte -> Z -> Z -> Z -> Z -> list byte.

(** C6, as the code has it.  Nothing checks that the cost parameters are
    positive.  A successful decode yields parameters that fit their Go
    types, so every field is at least zero and below two to the power of
    its width; and the only error [GenerateFromPassword] returns is the
    one of the random source, whatever the parameters are. *)
Theorem parameters_not_validated :
  (forall (hash : string) (p : argon2id.Params) (salt key : list byte),
      argon2id.decodeHash hash = Ok (p, salt, key) -> argon2id.wellTyped p) /\
  (forall (rand : io.Reader) (pass : list byte) (p : option argon2id.Params)
          (e : error),
      snd (fst (argon2id.GenerateFromPassword IDKey rand pass p)) = Some e ->
      fst (io.ReadFull rand (Z.to_nat (argon2id.SaltLength (effective p)))) = Err e).
Proof.
  split; [exact decodeHash_fits_types|].
  intros rand pass p e. unfold argon2id.GenerateFromPassword.
  fold (effective p).
  destruct (io.ReadFull rand (Z.to_nat (argon2id.SaltLength (effective p))))
    as [[salt|e'] rand']; simpl; congruence.
Qed.

(** C8. Without parameters [GenerateFromPassword] works with memory
    4096, iterations 10, parallelism 2, a salt of 32 bytes and a key of 64
    bytes: it reads 32 bytes of salt, derives the key with these values
    and writes them into the record. *)
Theorem GenerateFromPassword_defaults (rand : io.Reader) (pass : list byte) :
  argon2id.defaultParams = argon2id.mkParams 4096 10 2 32 64 /\
  argon2id.GenerateFromPassword IDKey rand pass None =
    argon2id.GenerateFromPassword IDKey rand pass (Some (argon2id.mkParams 4096 10 2 32 64)) /\
  argon2id.GenerateFromPassword IDKey rand pass None =
    match io.ReadFull rand 32 with
    | (Err err, rand') => ((EmptyString, Some err), rand')
    | (Ok salt, rand') =>
        (("$argon2id$v=19$m=4096,t=10,p=2$" ++ base64.EncodeToString salt ++ "$"
            ++ base64.EncodeToString (IDKey pass salt 10 4096 2 64),
          None), rand')
    end.
Proof.
  split; [reflexivity|]. split; [reflexivity|].
  unfold argon2id.GenerateFromPassword.
  change (Z.to_nat (argon2id.SaltLength argon2id.defaultParams)) with 32%nat.
  destruct (io.ReadFull rand 32) as [[salt|e] rand']; [|reflexivity].
  rewrite Sprintf_record. reflexivity.
Qed.

End Generation.

(** The record of all zeros decodes to well-typed parameters, and a
    random source that runs dry is the error of the generation. *)
Lemma parameters_not_validated_zeros :
  (exists (p : argon2id.Params) (salt key : list byte),
      argon2id.decodeHash "$argon2id$v=19$m=0,t=0,p=0$$" = Ok (p, salt, key) /\
      argon2id.wellTyped p) /\
  fst (io.ReadFull [] (Z.to_nat (argon2id.SaltLength tests.generateParams))) = Err EOF.
Proof.
  split.
  - destruct (argon2id.decodeHash "$argon2id$v=19$m=0,t=0,p=0$$")
      as [[[p salt] key]|e] eqn:Hd; [|vm_compute in Hd; discriminate].
    exists p, salt, key. split; [reflexivity|].
    exact (proj1 (parameters_not_validated (fun _ _ _ _ _ _ => [])) _ _ _ _ Hd).
  - exact (proj2 (parameters_not_validated (fun _ _ _ _ _ _ => []))
             [] [] (Some tests.generateParams) EOF eq_refl).
Defined.
(** ** Bit arithmetic *)

Lemma lor_disjoint (a b n : Z) :
  0 <= n -> 0 <= a -> a mod 2 ^ n = 0 -> 0 <= b < 2 ^ n ->
  Z.lor a b = a + b.
Proof.
  intros Hn Ha Hmod Hb.
  rewrite <- (Z.add_lor_land a b).
  assert (Hland : Z.land a b = 0); [|lia].
  apply Z.bits_inj'. intros i Hi.
  rewrite Z.land_spec, Z.bits_0.
  destruct (Z.lt_ge_cases i n) as [Hlt|Hge].
  - assert (Ha' : a = a / 2 ^ n * 2 ^ n).
    { pose proof (Z.div_mod a (2 ^ n) ltac:(lia)). lia. }
    rewrite Ha', Z.mul_pow2_bits_low by lia. reflexivity.
  - destruct (Z.eq_dec b 0) as [->|Hb0].
    + rewrite Z.bits_0. apply andb_false_r.
    + rewrite (Z.bits_above_log2 b i); [apply andb_false_r | lia |].
      assert (Z.log2 b < n) by (apply Z.log2_lt_pow2; lia). lia.
Qed.

Lemma land_63 (a : Z) : Z.land a 0x3F = a mod 64.
Proof. change 0x3F with (Z.ones 6). rewrite Z.land_ones by lia. reflexivity. Qed.

Lemma Zbyte_mod (z : Z) : Zbyte (z mod 256) = Zbyte z.
Proof.
  unfold Zbyte, uint8. change (2 ^ 8) with 256. rewrite Z.mod_mod by lia. reflexivity.
Qed.

Lemma Zbyte_eq (z : Z) (b : byte) : z mod 256 = byteZ b -> Zbyte z = b.
Proof.
  intros H. rewrite <- Zbyte_mod, H. apply Zbyte_byteZ.
Qed.

(** Three bytes as 24 bits. *)
Lemma pack3 (x y z : Z) :
  0 <= x < 256 -> 0 <= y < 256 -> 0 <= z < 256 ->
  Z.lor (Z.lor (Z.shiftl x 16) (Z.shiftl y 8)) z = x * 65536 + y * 256 + z.
Proof.
  intros Hx Hy Hz. rewrite !Z.shiftl_mul_pow2 by lia.
  change (2 ^ 16) with 65536. change (2 ^ 8) with 256.
  assert (H1 : Z.lor (x * 65536) (y * 256) = x * 65536 + y * 256).
  { apply (lor_disjoint _ _ 16); change (2 ^ 16) with 65536; try lia.
    apply Z.mod_mul. lia. }
  rewrite H1.
  apply (lor_disjoint _ _ 8); change (2 ^ 8) with 256; try lia.
  replace (x * 65536 + y * 256) with ((x * 256 + y) * 256) by lia.
  apply Z.mod_mul. lia.
Qed.

(** Four sextets as 24 bits. *)
Lemma pack4 (p q r s : Z) :
  0 <= p < 64 -> 0 <= q < 64 -> 0 <= r < 64 -> 0 <= s < 64 ->
  Z.lor (Z.lor (Z.lor (Z.shiftl p 18) (Z.shiftl q 12)) (Z.shiftl r 6)) s
  = p * 262144 + q * 4096 + r * 64 + s.
Proof.
  intros Hp Hq Hr Hs. rewrite !Z.shiftl_mul_pow2 by lia.
  change (2 ^ 18) with 262144. change (2 ^ 12) with 4096. change (2 ^ 6) with 64.
  assert (H1 : Z.lor (p * 262144) (q * 4096) = p * 262144 + q * 4096).
  { apply (lor_disjoint _ _ 18); change (2 ^ 18) with 262144; try lia.
    apply Z.mod_mul. lia. }
  rewrite H1.
  assert (H2 : Z.lor (p * 262144 + q * 4096) (r * 64)
               = p * 262144 + q * 4096 + r * 64).
  { apply (lor_disjoint _ _ 12); change (2 ^ 12) with 4096; try lia.
    replace (p * 262144 + q * 4096) with ((p * 64 + q) * 4096) by lia.
    apply Z.mod_mul. lia. }
  rewrite H2.
  apply (lor_disjoint _ _ 6); change (2 ^ 6) with 64; try lia.
  replace (p * 262144 + q * 4096 + r * 64) with ((p * 4096 + q * 64 + r) * 64) by lia.
  apply Z.mod_mul. lia.
Qed.

(** ** Base64: decoding what was encoded *)

Lemma decodeMap_encode (i : Z) :
  0 <= i < 64 -> base64.decodeMap (base64.encode i) = i.
Proof.
  intros Hi.
  assert (Hall : forallb (fun n => base64.decodeMap (base64.encode (Z.of_nat n))
                                   =? Z.of_nat n) (seq 0 64) = true)
    by (vm_compute; reflexivity).
  rewrite forallb_forall in Hall.
  specialize (Hall (Z.to_nat i)).
  rewrite Z2Nat.id in Hall by lia.
  apply Z.eqb_eq, Hall, in_seq. lia.
Qed.

Lemma sextet_valid (v : Z) :
  negb (base64.decodeMap (base64.encode (v mod 64)) =? 0xFF) = true /\
  base64.decodeMap (base64.encode (v mod 64)) = v mod 64.
Proof.
  pose proof (Z.mod_pos_bound v 64 ltac:(lia)) as Hr.
  rewrite decodeMap_encode by lia. split; [|reflexivity].
  apply negb_true_iff, Z.eqb_neq. lia.
Qed.

(** Four characters of the alphabet make one quantum. *)
Lemma decode_four (p q r s : Z) (rest : string) (si : Z) (out : list byte) :
  base64.decode
    (String (base64.encode (p mod 64)) (String (base64.encode (q mod 64))
       (String (base64.encode (r mod 64)) (String (base64.encode (s mod 64)) rest))))
    si [] out
  = base64.decode rest (si + 1 + 1 + 1 + 1) []
      (out ++ base64.quantumBytes [p mod 64; q mod 64; r mod 64; s mod 64])%list.
Proof.
  cbn [base64.decode].
  destruct (sextet_valid p) as [-> ->]. cbn [app List.length Nat.eqb].
  destruct (sextet_valid q) as [-> ->]. cbn [app List.length Nat.eqb].
  destruct (sextet_valid r) as [-> ->]. cbn [app List.length Nat.eqb].
  destruct (sextet_valid s) as [-> ->]. cbn [app List.length Nat.eqb].
  reflexivity.
Qed.

Lemma decode_three (p q r : Z) (si : Z) (out : list byte) :
  base64.decode
    (String (base64.encode (p mod 64)) (String (base64.encode (q mod 64))
       (String (base64.encode (r mod 64)) EmptyString)))
    si [] out
  = Ok (out ++ base64.quantumBytes [p mod 64; q mod 64; r mod 64])%list.
Proof.
  cbn [base64.decode].
  destruct (sextet_valid p) as [-> ->]. cbn [app List.length Nat.eqb].
  destruct (sextet_valid q) as [-> ->]. cbn [app List.length Nat.eqb].
  destruct (sextet_valid r) as [-> ->]. cbn [app List.length Nat.eqb].
  reflexivity.
Qed.

Lemma decode_two (p q : Z) (si : Z) (out : list byte) :
  base64.decode
    (String (base64.encode (p mod 64)) (String (base64.encode (q mod 64)) EmptyString))
    si [] out
  = Ok (out ++ base64.quantumBytes [p mod 64; q mod 64])%list.
Proof.
  cbn [base64.decode].
  destruct (sextet_valid p) as [-> ->]. cbn [app List.length Nat.eqb].
  destruct (sextet_valid q) as [-> ->]. cbn [app List.length Nat.eqb].
  reflexivity.
Qed.

(** Turns the bit operations of a quantum into arithmetic. *)
Ltac quantum_arith :=
  rewrite ?land_63, ?Z.shiftr_div_pow2 by lia;
  change (2 ^ 18) with 262144; change (2 ^ 16) with 65536;
  change (2 ^ 12) with 4096; change (2 ^ 8) with 256; change (2 ^ 6) with 64;
  change (2 ^ 0) with 1.

Lemma quantum_of_three (b0 b1 b2 : byte) :
  let val := Z.lor (Z.lor (Z.shiftl (byteZ b0) 16) (Z.shiftl (byteZ b1) 8)) (byteZ b2) in
  base64.quantumBytes
    [Z.shiftr val 18 mod 64; Z.shiftr val 12 mod 64; Z.shiftr val 6 mod 64; val mod 64]
  = [b0; b1; b2].
Proof.
  cbv zeta.
  pose proof (byteZ_range b0) as H0. pose proof (byteZ_range b1) as H1.
  pose proof (byteZ_range b2) as H2.
  rewrite pack3 by assumption.
  set (V := byteZ b0 * 65536 + byteZ b1 * 256 + byteZ b2).
  unfold base64.quantumBytes. cbn [nth List.length].
  rewrite pack4 by (apply Z.mod_pos_bound; lia).
  quantum_arith.
  f_equal; [|f_equal; [|f_equal]]; apply Zbyte_eq; subst V;
    Z.div_mod_to_equations; lia.
Qed.

Lemma quantum_of_two (b0 b1 : byte) :
  let val := Z.lor (Z.shiftl (byteZ b0) 16) (Z.shiftl (byteZ b1) 8) in
  base64.quantumBytes [Z.shiftr val 18 mod 64; Z.shiftr val 12 mod 64; Z.shiftr val 6 mod 64]
  = [b0; b1].
Proof.
  cbv zeta.
  pose proof (byteZ_range b0) as H0. pose proof (byteZ_range b1) as H1.
  assert (Hv : Z.lor (Z.shiftl (byteZ b0) 16) (Z.shiftl (byteZ b1) 8)
               = byteZ b0 * 65536 + byteZ b1 * 256 + 0).
  { rewrite <- (pack3 (byteZ b0) (byteZ b1) 0) by lia. now rewrite Z.lor_0_r. }
  rewrite Hv.
  set (V := byteZ b0 * 65536 + byteZ b1 * 256 + 0).
  unfold base64.quantumBytes. cbn [nth List.length].
  rewrite pack4 by (try apply Z.mod_pos_bound; lia).
  quantum_arith.
  f_equal; [|f_equal]; apply Zbyte_eq; subst V; Z.div_mod_to_equations; lia.
Qed.

Lemma quantum_of_one (b0 : byte) :
  let val := Z.shiftl (byteZ b0) 16 in
  base64.quantumBytes [Z.shiftr val 18 mod 64; Z.shiftr val 12 mod 64] = [b0].
Proof.
  cbv zeta.
  pose proof (byteZ_range b0) as H0.
  rewrite Z.shiftl_mul_pow2 by lia. change (2 ^ 16) with 65536.
  set (V := byteZ b0 * 65536).
  unfold base64.quantumBytes. cbn [nth List.length].
  rewrite pack4 by (try apply Z.mod_pos_bound; lia).
  quantum_arith.
  f_equal; apply Zbyte_eq; subst V; Z.div_mod_to_equations; lia.
Qed.

(** Induction on a list, three elements at a time. *)
Lemma list_by_threes {A : Type} (P : list A -> Prop) :
  P [] ->
  (forall a, P [a]) ->
  (forall a b, P [a; b]) ->
  (forall a b c l, P l -> P (a :: b :: c :: l)) ->
  forall l, P l.
Proof.
  intros H0 H1 H2 H3 l.
  assert (Hall : P l /\ (forall a, P (a :: l)) /\ (forall a b, P (a :: b :: l))).
  { induction l as [|x l (IHa & IHb & IHc)]; [auto|].
    split; [apply IHb|]. split; [intros a; apply IHc|].
    intros a b. apply H3, IHa. }
  apply Hall.
Qed.

(** Decoding an encoded sequence of bytes gives the bytes back. *)
Lemma decode_EncodeToString (src : list byte) :
  forall (si : Z) (out : list byte),
    base64.decode (base64.EncodeToString src) si [] out = Ok (out ++ src)%list.
Proof.
  induction src as [|b0|b0 b1|b0 b1 b2 rest IH] using list_by_threes;
    intros si out.
  - simpl. now rewrite app_nil_r.
  - cbn [base64.EncodeToString]. rewrite !land_63, decode_two.
    now rewrite quantum_of_one.
  - cbn [base64.EncodeToString]. rewrite !land_63, decode_three.
    now rewrite quantum_of_two.
  - cbn [base64.EncodeToString]. rewrite !land_63, decode_four.
    rewrite quantum_of_three, IH, <- app_assoc. reflexivity.
Qed.

Lemma DecodeString_EncodeToString (src : list byte) :
  base64.DecodeString (base64.EncodeToString src) = Ok src.
Proof. unfold base64.DecodeString. now rewrite decode_EncodeToString. Qed.

(** ** Characters of the record *)

Lemma allOf_app (P : ascii -> bool) (a b : string) :
  allOf P (a ++ b) = allOf P a && allOf P b.
Proof.
  induction a as [|c a IH]; simpl; [reflexivity|].
  now rewrite IH, andb_assoc.
Qed.

Lemma allOf_impl (P Q : ascii -> bool) (s : string) :
  (forall c, P c = true -> Q c = true) -> allOf P s = true -> allOf Q s = true.
Proof.
  intros HPQ. induction s as [|c s IH]; simpl; [reflexivity|].
  intros H. apply andb_true_iff in H as [Hc Hs].
  now rewrite (HPQ c Hc), (IH Hs).
Qed.

Lemma allOf_Contains (P : ascii -> bool) (s : string) (c : ascii) :
  allOf P s = true -> P c = false -> strings.Contains s c = false.
Proof.
  intros Hs Hc. induction s as [|d s IH]; simpl in *; [reflexivity|].
  apply andb_true_iff in Hs as [Hd Hs]. rewrite (IH Hs), orb_false_r.
  destruct (Ascii.eqb_spec d c) as [->|]; [congruence | reflexivity].
Qed.

Lemma encode_stdAlphabet (v : Z) : stdAlphabet (base64.encode (v mod 64)) = true.
Proof.
  pose proof (Z.mod_pos_bound v 64 ltac:(lia)) as Hr.
  assert (Hall : forallb (fun n => stdAlphabet (base64.encode (Z.of_nat n)))
                   (seq 0 64) = true) by (vm_compute; reflexivity).
  rewrite forallb_forall in Hall.
  specialize (Hall (Z.to_nat (v mod 64))).
  rewrite Z2Nat.id in Hall by lia.
  apply Hall, in_seq. lia.
Qed.

(** The encoder writes characters of the standard alphabet only. *)
Lemma EncodeToString_stdAlphabet (src : list byte) :
  allOf stdAlphabet (base64.EncodeToString src) = true.
Proof.
  induction src as [|b0|b0 b1|b0 b1 b2 rest IH] using list_by_threes;
    cbn [base64.EncodeToString allOf]; rewrite ?land_63, ?encode_stdAlphabet;
    auto.
Qed.

(** The length of the unpadded encoding of [n] bytes is [(8n + 5) / 6]. *)
Lemma EncodeToString_length (src : list byte) :
  Z.of_nat (String.length (base64.EncodeToString src))
  = (8 * Z.of_nat (List.length src) + 5) / 6.
Proof.
  induction src as [|b0|b0 b1|b0 b1 b2 rest IH] using list_by_threes;
    try reflexivity.
  cbn [base64.EncodeToString String.length List.length].
  rewrite !Nat2Z.inj_succ, IH.
  Z.div_mod_to_equations. lia.
Qed.

Lemma EncodeToString_no_dollar (src : list byte) :
  strings.Contains (base64.EncodeToString src) "$" = false.
Proof.
  apply (allOf_Contains stdAlphabet); [apply EncodeToString_stdAlphabet|].
  reflexivity.
Qed.

(** ** Decimal numbers *)

Lemma asciiZ_Zascii (z : Z) : 0 <= z < 256 -> asciiZ (Zascii z) = z.
Proof.
  intros Hz. unfold asciiZ, Zascii, uint8.
  rewrite Z.mod_small by (simpl; lia).
  rewrite N_ascii_embedding by lia. lia.
Qed.

Lemma length_append (a b : string) :
  String.length (a ++ b) = (String.length a + String.length b)%nat.
Proof.
  induction a as [|c a IH]; simpl; [reflexivity | now rewrite IH].
Qed.

Lemma valueFrom_app (n : Z) (a b : string) :
  valueFrom n (a ++ b) = valueFrom (valueFrom n a) b.
Proof.
  revert n. induction a as [|c a IH]; intros n; simpl; [reflexivity | apply IH].
Qed.

Lemma valueFrom_ge (s : string) (n : Z) :
  allOf isDigit s = true -> 0 <= n -> n <= valueFrom n s.
Proof.
  revert n. induction s as [|c s IH]; intros n Hs Hn; simpl in *; [lia|].
  apply andb_true_iff in Hs as [Hc Hs]. unfold isDigit in Hc.
  assert (0 <= n * 10 + (asciiZ c - 48)) by lia.
  specialize (IH _ Hs H). lia.
Qed.

Lemma fmtDigits_acc (fuel : nat) (u : Z) (acc : string) :
  fmt.fmtDigits fuel u acc = fmt.fmtDigits fuel u EmptyString ++ acc.
Proof.
  revert u acc. induction fuel as [|fuel IH]; intros u acc; simpl; [reflexivity|].
  destruct (10 <=? u); [|reflexivity].
  rewrite (IH _ (String _ acc)), (IH _ (String _ EmptyString)).
  rewrite append_assoc. reflexivity.
Qed.

Lemma isDigit_Zascii (z : Z) : 48 <= z <= 57 -> isDigit (Zascii z) = true.
Proof.
  intros Hz. unfold isDigit. rewrite asciiZ_Zascii by lia.
  apply andb_true_iff; split; lia.
Qed.

(** The digits written for [u] denote [u]: they are decimal digits, at
    least one and at most [fuel] of them. *)
Lemma fmtDigits_decimal (fuel : nat) (u : Z) :
  0 <= u < 10 ^ Z.of_nat (S fuel) ->
  let ds := fmt.fmtDigits (S fuel) u EmptyString in
  decimalValue ds = u /\ allOf isDigit ds = true /\
  ds <> EmptyString /\ (String.length ds <= S fuel)%nat.
Proof.
  assert (Hone : forall u, 0 <= u < 10 ->
            let ds := String (Zascii (48 + u)) EmptyString in
            decimalValue ds = u /\ allOf isDigit ds = true /\
            ds <> EmptyString /\ (String.length ds <= 1)%nat).
  { intros v Hv. cbv zeta. unfold decimalValue. cbn [valueFrom allOf String.length].
    rewrite asciiZ_Zascii, isDigit_Zascii by lia.
    split; [lia|]. split; [reflexivity|]. split; [discriminate | lia]. }
  revert u. induction fuel as [|fuel IH]; intros u Hu; cbv zeta.
  - change (10 ^ Z.of_nat 1) with 10 in Hu. cbn [fmt.fmtDigits].
    destruct (Z.leb_spec 10 u) as [H|H]; [lia|]. apply Hone. lia.
  - remember (S fuel) as f eqn:Hf. cbn [fmt.fmtDigits].
    assert (Hpow : 10 ^ Z.of_nat (S f) = 10 * 10 ^ Z.of_nat f).
    { rewrite Nat2Z.inj_succ, Z.pow_succ_r by lia. reflexivity. }
    destruct (Z.leb_spec 10 u) as [H|H].
    + assert (Hq : 0 <= u / 10 < 10 ^ Z.of_nat f).
      { split; [apply Z.div_pos; lia|].
        apply Z.div_lt_upper_bound; lia. }
      subst f. destruct (IH (u / 10) Hq) as (Hv & Hd & Hne & Hlen).
      rewrite fmtDigits_acc.
      set (ds := fmt.fmtDigits (S fuel) (u / 10) EmptyString) in *.
      assert (Hdig : 0 <= u - u / 10 * 10 < 10)
        by (Z.div_mod_to_equations; lia).
      unfold decimalValue in *.
      rewrite valueFrom_app, Hv, allOf_app, Hd. cbn [valueFrom allOf].
      rewrite asciiZ_Zascii, isDigit_Zascii by lia.
      split; [lia|]. split; [reflexivity|]. split.
      * destruct ds; [contradiction | discriminate].
      * rewrite length_append. simpl. lia.
    + destruct (Hone u ltac:(lia)) as (Hv & Hd & Hne & Hlen).
      repeat split; auto. simpl in *. lia.
Qed.

(** What [%d] writes for a value of at most 64 bits. *)
Lemma fmtInteger_decimal (v : Z) :
  0 <= v < 2 ^ 64 ->
  decimalValue (fmt.fmtInteger v) = v /\
  allOf isDigit (fmt.fmtInteger v) = true /\
  fmt.fmtInteger v <> EmptyString /\
  (String.length (fmt.fmtInteger v) <= 20)%nat.
Proof.
  intros Hv. unfold fmt.fmtInteger, fmt.fmtUnsigned.
  destruct (Z.ltb_spec v 0) as [H|H]; [lia|].
  apply (fmtDigits_decimal 19 v). simpl. lia.
Qed.

(** ** Parsing decimal digits *)

Lemma digitLoop_digits (s : string) (n : Z) :
  allOf isDigit s = true -> 0 <= n -> valueFrom n s < 2 ^ 64 ->
  strconv.digitLoop s n (strconv.maxUint64 / 10 + 1) (2 ^ 64 - 1)
  = (valueFrom n s, None).
Proof.
  revert n. induction s as [|c s IH]; intros n Hs Hn Hv; [reflexivity|].
  cbn [allOf] in Hs. apply andb_true_iff in Hs as [Hc Hs].
  cbn [valueFrom] in Hv. cbn [strconv.digitLoop valueFrom].
  fold (isDigit c). rewrite Hc. unfold isDigit in Hc.
  assert (Hd : 0 <= asciiZ c - 48 <= 9) by lia.
  assert (Hn1 : 0 <= n * 10 + (asciiZ c - 48)) by lia.
  pose proof (valueFrom_ge s _ Hs Hn1) as Hge.
  change (strconv.maxUint64 / 10 + 1) with 1844674407370955162.
  destruct (Z.leb_spec 1844674407370955162 n) as [H|H]; [lia|].
  unfold uint64. rewrite (Z.mod_small (n * 10)) by lia.
  rewrite (Z.mod_small (n * 10 + _)) by lia.
  destruct (Z.ltb_spec (n * 10 + (asciiZ c - 48)) (n * 10)) as [H1|H1]; [lia|].
  destruct (Z.ltb_spec (2 ^ 64 - 1) (n * 10 + (asciiZ c - 48))) as [H2|H2]; [lia|].
  cbn [orb].
  change (1844674407370955162) with (strconv.maxUint64 / 10 + 1).
  apply IH; assumption.
Qed.

(** [ParseUint] reads back a string of decimal digits that denotes a
    value of 64 bits. *)
Lemma ParseUint_digits (s : string) :
  s <> EmptyString -> allOf isDigit s = true -> decimalValue s < 2 ^ 64 ->
  strconv.ParseUint s 64 = Ok (decimalValue s).
Proof.
  intros Hne Hs Hv. unfold strconv.ParseUint, strconv.parseUint.
  destruct s as [|c s]; [contradiction|].
  rewrite digitLoop_digits by (auto; lia). reflexivity.
Qed.

(** ** Runes of ASCII strings *)

Lemma runes_ASCII (s : string) :
  allOf isASCII s = true -> utf8.runes s = asciiRunes s.
Proof.
  induction s as [|c s IH]; [reflexivity|].
  cbn [allOf]. intros H. apply andb_true_iff in H as [Hc Hs].
  cbn [utf8.runes asciiRunes]. unfold isASCII in Hc.
  rewrite Hc, (IH Hs). reflexivity.
Qed.

Lemma asciiRunes_app (a b : string) :
  asciiRunes (a ++ b) = (asciiRunes a ++ asciiRunes b)%list.
Proof.
  induction a as [|c a IH]; simpl; [reflexivity | now rewrite IH].
Qed.

Lemma isDigit_isASCII (c : ascii) : isDigit c = true -> isASCII c = true.
Proof.
  unfold isDigit, isASCII. intros H. apply andb_true_iff in H as [H1 H2].
  apply Z.ltb_lt. lia.
Qed.

(** ** Scanning decimal digits *)

Lemma indexRune_digits (r : Z) :
  fmt.indexRune fmt.decimalDigits r = (48 <=? r) && (r <=? 57).
Proof.
  unfold fmt.indexRune.
  change (utf8.runes fmt.decimalDigits) with [48; 49; 50; 51; 52; 53; 54; 55; 56; 57].
  cbn [existsb].
  destruct (Z.leb_spec 48 r) as [Hlo|Hlo]; destruct (Z.leb_spec r 57) as [Hhi|Hhi];
    cbn [andb];
    repeat match goal with
           | |- context [r =? ?k] => destruct (Z.eqb_spec r k); cbn [orb]; try lia
           end; reflexivity.
Qed.

Lemma acceptAll_digits (ds buf : string) (rest : list Z) (n : Z) :
  allOf isDigit ds = true -> stops rest ->
  n + Z.of_nat (String.length ds) <= fmt.hugeWid ->
  fmt.acceptAll fmt.decimalDigits buf (asciiRunes ds ++ rest)%list n
  = (buf ++ ds, fmt.mkss rest (n + Z.of_nat (String.length ds))).
Proof.
  revert buf n. induction ds as [|c ds IH]; intros buf n Hd Hstop Hn.
  - cbn [asciiRunes app String.length]. rewrite append_empty_r, Z.add_0_r.
    destruct rest as [|r rest]; [reflexivity|].
    cbn [fmt.acceptAll]. destruct (fmt.hugeWid <=? n); [reflexivity|].
    rewrite indexRune_digits. cbn [stops] in Hstop. rewrite Hstop. reflexivity.
  - cbn [allOf] in Hd. apply andb_true_iff in Hd as [Hc Hd].
    cbn [String.length] in Hn. rewrite Nat2Z.inj_succ in Hn.
    cbn [asciiRunes app fmt.acceptAll].
    destruct (Z.leb_spec fmt.hugeWid n) as [H|H]; [lia|].
    rewrite indexRune_digits. fold (isDigit c). rewrite Hc.
    rewrite Zascii_asciiZ, IH by (auto; lia).
    rewrite append_assoc. cbn [append String.length].
    rewrite Nat2Z.inj_succ. f_equal. f_equal. lia.
Qed.

Lemma isSpace_digit (r : Z) : 48 <= r <= 57 -> fmt.isSpace r = false.
Proof.
  intros Hr. unfold fmt.isSpace.
  change (Z.shiftl 1 16) with 65536.
  destruct (Z.leb_spec 65536 r); [reflexivity|].
  unfold fmt.space. cbn [fmt.inRanges].
  repeat match goal with
         | |- context [r <? ?k] => destruct (Z.ltb_spec r k); try lia; try reflexivity
         | |- context [r <=? ?k] => destruct (Z.leb_spec r k); try lia; try reflexivity
         end.
Qed.

Lemma skipRunes_digit (c : ascii) (rest : list Z) (n : Z) :
  isDigit c = true ->
  fmt.skipRunes (asciiZ c :: rest) n = Ok (fmt.mkss (asciiZ c :: rest) n).
Proof.
  intros Hc. unfold isDigit in Hc. apply andb_true_iff in Hc as [H1 H2].
  cbn [fmt.skipRunes]. destruct (fmt.hugeWid <=? n); [reflexivity|].
  destruct (Z.eqb_spec (asciiZ c) 13); [lia|]. cbn [andb].
  destruct (Z.eqb_spec (asciiZ c) 10); [lia|].
  rewrite isSpace_digit by lia. reflexivity.
Qed.

(** [scanNumber] on digits: the token is the digits, the state is just
    past them. *)
Lemma scanNumber_digits (ds : string) (rest : list Z) (n : Z) :
  ds <> EmptyString -> allOf isDigit ds = true -> stops rest ->
  n + Z.of_nat (String.length ds) <= fmt.hugeWid ->
  fmt.scanNumber fmt.decimalDigits EmptyString
    (fmt.mkss (asciiRunes ds ++ rest)%list n)
  = Ok (ds, fmt.mkss rest (n + Z.of_nat (String.length ds))).
Proof.
  intros Hne Hd Hstop Hn. destruct ds as [|c ds]; [contradiction|].
  cbn [allOf] in Hd. apply andb_true_iff in Hd as [Hc Hd].
  cbn [String.length] in Hn. rewrite Nat2Z.inj_succ in Hn.
  unfold fmt.scanNumber, fmt.notEOF, fmt.accept, fmt.ReadRune.
  cbn [asciiRunes app fmt.rs fmt.count].
  destruct (Z.leb_spec fmt.hugeWid n) as [H|H]; [lia|].
  cbn [bind]. rewrite indexRune_digits. fold (isDigit c). rewrite Hc.
  cbn [fmt.rs fmt.count]. rewrite Zascii_asciiZ.
  rewrite acceptAll_digits by (auto; lia).
  cbn [append String.length]. rewrite Nat2Z.inj_succ.
  do 3 f_equal. lia.
Qed.

(** [scanUint] on the digits of a value that fits [bitSize] bits. *)
Lemma scanUint_digits (bitSize : Z) (ds : string) (rest : list Z) (n : Z) :
  0 < bitSize <= 64 ->
  ds <> EmptyString -> allOf isDigit ds = true -> stops rest ->
  decimalValue ds < 2 ^ bitSize ->
  n + Z.of_nat (String.length ds) <= fmt.hugeWid ->
  fmt.scanUint "d" bitSize (fmt.mkss (asciiRunes ds ++ rest)%list n)
  = Ok (decimalValue ds, fmt.mkss rest (n + Z.of_nat (String.length ds))).
Proof.
  intros Hb Hne Hd Hstop Hv Hn.
  assert (Hv0 : 0 <= decimalValue ds) by (apply valueFrom_ge; auto; lia).
  assert (Hpow : 2 ^ bitSize <= 2 ^ 64) by (apply Z.pow_le_mono_r; lia).
  unfold fmt.scanUint, fmt.SkipSpace. cbn [fmt.rs fmt.count].
  assert (Hskip : fmt.skipRunes (asciiRunes ds ++ rest)%list n
                  = Ok (fmt.mkss (asciiRunes ds ++ rest)%list n)).
  { destruct ds as [|c ds]; [contradiction|].
    cbn [allOf] in Hd. apply andb_true_iff in Hd as [Hc _].
    cbn [asciiRunes app]. now apply skipRunes_digit. }
  rewrite Hskip. cbn [bind].
  assert (Hnot : fmt.notEOF (fmt.mkss (asciiRunes ds ++ rest)%list n) = Ok tt).
  { destruct ds as [|c ds]; [contradiction|].
    cbn [String.length] in Hn. rewrite Nat2Z.inj_succ in Hn.
    unfold fmt.notEOF, fmt.ReadRune. cbn [asciiRunes app fmt.rs fmt.count].
    destruct (Z.leb_spec fmt.hugeWid n) as [H|H]; [lia | reflexivity]. }
  rewrite Hnot. cbn [bind]. unfold fmt.getBase. cbn [Ascii.eqb Bool.eqb andb bind].
  rewrite scanNumber_digits by assumption. cbn [bind].
  rewrite ParseUint_digits by (auto; lia). cbn [bind].
  assert (Hx : Z.shiftr (uint64 (Z.shiftl (decimalValue ds) (64 - bitSize)))
                 (64 - bitSize) = decimalValue ds).
  { rewrite Z.shiftl_mul_pow2, Z.shiftr_div_pow2 by lia. unfold uint64.
    assert (Hsplit : 2 ^ 64 = 2 ^ bitSize * 2 ^ (64 - bitSize)).
    { rewrite <- Z.pow_add_r by lia. f_equal. lia. }
    assert (Hp : 0 < 2 ^ (64 - bitSize)) by (apply Z.pow_pos_nonneg; lia).
    rewrite Z.mod_small by (rewrite Hsplit; nia).
    apply Z.div_mul. lia. }
  rewrite Hx, Z.eqb_refl. reflexivity.
Qed.

(** ** Scanning the clauses of a record *)

(** The verb [%d] on the digits of an unsigned operand. *)
Lemma doScanf_unsigned (x : fmt.operand) (format : string) (a : list fmt.operand)
    (ds : string) (rest : list Z) (n : Z) :
  x <> fmt.IntPtr ->
  ds <> EmptyString -> allOf isDigit ds = true -> stops rest ->
  decimalValue ds < 2 ^ bitsOf x ->
  n + Z.of_nat (String.length ds) <= fmt.hugeWid ->
  fmt.doScanf (String "%" (String "d" format)) (x :: a)
    (fmt.mkss (asciiRunes ds ++ rest)%list n)
  = (vs <- fmt.doScanf format a
             (fmt.mkss rest (n + Z.of_nat (String.length ds))) ;;
     Ok (decimalValue ds :: vs)).
Proof.
  intros Hx Hne Hd Hstop Hv Hn.
  assert (Hv0 : 0 <= decimalValue ds) by (apply valueFrom_ge; auto; lia).
  cbn [fmt.doScanf Ascii.eqb Bool.eqb andb].
  unfold fmt.SkipSpace. cbn [fmt.rs fmt.count].
  assert (Hskip : fmt.skipRunes (asciiRunes ds ++ rest)%list n
                  = Ok (fmt.mkss (asciiRunes ds ++ rest)%list n)).
  { destruct ds as [|c ds]; [contradiction|].
    cbn [allOf] in Hd. apply andb_true_iff in Hd as [Hc _].
    cbn [asciiRunes app]. now apply skipRunes_digit. }
  rewrite Hskip. cbn [bind].
  destruct x; [contradiction| |]; cbn [fmt.scanOne bitsOf] in *.
  - rewrite (scanUint_digits 32) by (auto; lia). cbn [bind].
    unfold uint32. rewrite Z.mod_small by lia. reflexivity.
  - rewrite (scanUint_digits 8) by (auto; lia). cbn [bind].
    unfold uint8. rewrite Z.mod_small by lia. reflexivity.
Qed.

(** A literal of the format that is the next rune of the input. *)
Lemma doScanf_literal (c : ascii) (format : string) (a : list fmt.operand)
    (rest : list Z) (n : Z) :
  Ascii.eqb c "%" = false -> n < fmt.hugeWid ->
  fmt.doScanf (String c format) a (fmt.mkss (asciiZ c :: rest) n)
  = fmt.doScanf format a (fmt.mkss rest (n + 1)).
Proof.
  intros Hc Hn. cbn [fmt.doScanf]. rewrite Hc.
  unfold fmt.ReadRune. cbn [fmt.rs fmt.count].
  destruct (Z.leb_spec fmt.hugeWid n) as [H|H]; [lia|].
  rewrite Z.eqb_refl. reflexivity.
Qed.

(** The parameter clause written by [GenerateFromPassword] scans back to
    the three values. *)
Lemma Sscanf_parameter_clause (m t p : Z) :
  0 <= m < 2 ^ 32 -> 0 <= t < 2 ^ 32 -> 0 <= p < 2 ^ 8 ->
  fmt.Sscanf ("m=" ++ fmt.fmtInteger m ++ ",t=" ++ fmt.fmtInteger t
                ++ ",p=" ++ fmt.fmtInteger p)
    "m=%d,t=%d,p=%d" [fmt.Uint32Ptr; fmt.Uint32Ptr; fmt.Uint8Ptr]
  = Ok [m; t; p].
Proof.
  intros Hm Ht Hp.
  destruct (fmtInteger_decimal m ltac:(lia)) as (Vm & Dm & Nm & Lm).
  destruct (fmtInteger_decimal t ltac:(lia)) as (Vt & Dt & Nt & Lt).
  destruct (fmtInteger_decimal p ltac:(lia)) as (Vp & Dp & Np & Lp).
  set (dm := fmt.fmtInteger m) in *. set (dt := fmt.fmtInteger t) in *.
  set (dp := fmt.fmtInteger p) in *.
  unfold fmt.Sscanf.
  rewrite runes_ASCII.
  2:{ rewrite !allOf_app.
      rewrite (allOf_impl _ _ dm isDigit_isASCII Dm),
              (allOf_impl _ _ dt isDigit_isASCII Dt),
              (allOf_impl _ _ dp isDigit_isASCII Dp).
      reflexivity. }
  rewrite !asciiRunes_app.
  change (asciiRunes "m=") with [asciiZ "m"; asciiZ "="].
  change (asciiRunes ",t=") with [asciiZ ","; asciiZ "t"; asciiZ "="].
  change (asciiRunes ",p=") with [asciiZ ","; asciiZ "p"; asciiZ "="].
  cbn [app].
  change fmt.hugeWid with 1073741824 in *.
  assert (Hcomma : forall l, stops (asciiZ "," :: l)) by (intros; reflexivity).
  rewrite 2 doScanf_literal by (reflexivity || (change fmt.hugeWid with 1073741824; lia)).
  rewrite (doScanf_unsigned fmt.Uint32Ptr)
    by (try discriminate; auto; cbn [bitsOf];
        try (change fmt.hugeWid with 1073741824); lia).
  rewrite 3 doScanf_literal by (reflexivity || (change fmt.hugeWid with 1073741824; lia)).
  rewrite (doScanf_unsigned fmt.Uint32Ptr)
    by (try discriminate; auto; cbn [bitsOf];
        try (change fmt.hugeWid with 1073741824); lia).
  rewrite 3 doScanf_literal by (reflexivity || (change fmt.hugeWid with 1073741824; lia)).
  rewrite <- (app_nil_r (asciiRunes dp)).
  rewrite (doScanf_unsigned fmt.Uint8Ptr)
    by (try discriminate; auto; cbn [bitsOf stops];
        try (change fmt.hugeWid with 1073741824); lia).
  cbn [fmt.doScanf bind]. rewrite Vm, Vt, Vp. reflexivity.
Qed.

(** ** The record written by [GenerateFromPassword], decoded *)

Lemma Split_six (a b c d e f : string) :
  strings.Contains a "$" = false -> strings.Contains b "$" = false ->
  strings.Contains c "$" = false -> strings.Contains d "$" = false ->
  strings.Contains e "$" = false -> strings.Contains f "$" = false ->
  strings.Split
    (a ++ String "$" (b ++ String "$" (c ++ String "$" (d ++ String "$"
       (e ++ String "$" f))))) "$"
  = [a; b; c; d; e; f].
Proof.
  intros Ha Hb Hc Hd He Hf.
  rewrite !Split_app_sep by assumption.
  rewrite Split_no_sep by assumption. reflexivity.
Qed.

Lemma digits_no_dollar (ds : string) :
  allOf isDigit ds = true -> strings.Contains ds "$" = false.
Proof.
  intros H. apply (allOf_Contains isDigit); [exact H | reflexivity].
Qed.

(** The six segments of a record. *)
Lemma record_segments (dv dm dt dp es ek : string) :
  "$argon2id$v=" ++ dv ++ "$m=" ++ dm ++ ",t=" ++ dt ++ ",p=" ++ dp
     ++ "$" ++ es ++ "$" ++ ek
  = "" ++ String "$" ("argon2id" ++ String "$" (("v=" ++ dv) ++ String "$"
      (("m=" ++ dm ++ ",t=" ++ dt ++ ",p=" ++ dp) ++ String "$"
         (es ++ String "$" ek)))).
Proof.
  cbn [append]. repeat (rewrite append_assoc; cbn [append]). reflexivity.
Qed.

(** Decoding the record written for parameters that fit their types,
    a salt and a key gives them back, with the lengths of salt and key. *)
Lemma decodeHash_record (m t p : Z) (salt key : list byte) :
  0 <= m < 2 ^ 32 -> 0 <= t < 2 ^ 32 -> 0 <= p < 2 ^ 8 ->
  argon2id.decodeHash
    (fmt.Sprintf "$argon2id$v=%d$m=%d,t=%d,p=%d$%s$%s"
       [fmt.Int argon2.Version; fmt.Uint32 m; fmt.Uint32 t; fmt.Uint8 p;
        fmt.Str (base64.EncodeToString salt); fmt.Str (base64.EncodeToString key)])
  = Ok ({| argon2id.Memory := m; argon2id.Iterations := t;
           argon2id.Parallelism := p;
           argon2id.SaltLength := uint32 (Z.of_nat (List.length salt));
           argon2id.KeyLength := uint32 (Z.of_nat (List.length key)) |},
        salt, key).
Proof.
  intros Hm Ht Hp.
  destruct (fmtInteger_decimal m ltac:(lia)) as (Vm & Dm & Nm & Lm).
  destruct (fmtInteger_decimal t ltac:(lia)) as (Vt & Dt & Nt & Lt).
  destruct (fmtInteger_decimal p ltac:(lia)) as (Vp & Dp & Np & Lp).
  rewrite Sprintf_record, record_segments.
  change (fmt.fmtInteger argon2.Version) with "19".
  erewrite decodeHash_six.
  2:{ apply Split_six; try reflexivity;
        try apply EncodeToString_no_dollar.
      rewrite !Contains_app, (digits_no_dollar _ Dm), (digits_no_dollar _ Dt),
        (digits_no_dollar _ Dp). reflexivity. }
  change (fmt.Sscanf ("v=" ++ "19") "v=%d" [fmt.IntPtr]) with (Ok [19]).
  cbn [bind nth]. change (String.eqb "argon2id" "argon2id") with true.
  change (19 =? argon2.Version) with true. cbn [negb orb].
  rewrite Sscanf_parameter_clause by assumption. cbn [bind nth].
  rewrite !DecodeString_EncodeToString. cbn [bind]. reflexivity.
Qed.

Lemma ReadFull_length (r r' : io.Reader) (n : nat) (buf : list byte) :
  io.ReadFull r n = (Ok buf, r') -> List.length buf = n.
Proof.
  unfold io.ReadFull. destruct (Nat.leb_spec n (List.length r)) as [H|H].
  - intros [= <- _]. apply firstn_length_le. exact H.
  - destruct r; discriminate.
Qed.

(** What a successful [GenerateFromPassword] did. *)
Lemma GenerateFromPassword_Ok
    (IDKey : list byte -> list byte -> Z -> Z -> Z -> Z -> list byte)
    (rand rand' : io.Reader) (pass : list byte) (p : option argon2id.Params)
    (record : string) :
  argon2id.GenerateFromPassword IDKey rand pass p = ((record, None), rand') ->
  exists salt,
    io.ReadFull rand (Z.to_nat (argon2id.SaltLength (effective p)))
      = (Ok salt, rand') /\
    record =
      fmt.Sprintf "$argon2id$v=%d$m=%d,t=%d,p=%d$%s$%s"
        [fmt.Int argon2.Version; fmt.Uint32 (argon2id.Memory (effective p));
         fmt.Uint32 (argon2id.Iterations (effective p));
         fmt.Uint8 (argon2id.Parallelism (effective p));
         fmt.Str (base64.EncodeToString salt);
         fmt.Str (base64.EncodeToString
                    (IDKey pass salt (argon2id.Iterations (effective p))
                       (argon2id.Memory (effective p))
                       (argon2id.Parallelism (effective p))
                       (argon2id.KeyLength (effective p))))].
Proof.
  unfold argon2id.GenerateFromPassword. fold (effective p).
  destruct (io.ReadFull rand (Z.to_nat (argon2id.SaltLength (effective p))))
    as [[salt|e] r1]; [|discriminate].
  intros [= <- <-]. exists salt. split; reflexivity.
Qed.

(** ** The format of a record *)

Lemma fmtDigits_leading (fuel : nat) (u : Z) :
  0 < u < 10 ^ Z.of_nat (S fuel) ->
  exists c rest,
    fmt.fmtDigits (S fuel) u EmptyString = String c rest /\ Ascii.eqb c "0" = false.
Proof.
  assert (Hone : forall v, 0 < v < 10 -> Ascii.eqb (Zascii (48 + v)) "0" = false).
  { intros v Hv. apply Ascii.eqb_neq. intros E.
    apply (f_equal asciiZ) in E. rewrite asciiZ_Zascii in E by lia.
    change (asciiZ "0") with 48 in E. lia. }
  revert u. induction fuel as [|fuel IH]; intros u Hu.
  - change (10 ^ Z.of_nat 1) with 10 in Hu. cbn [fmt.fmtDigits].
    destruct (Z.leb_spec 10 u) as [H|H]; [lia|].
    eexists _, _. split; [reflexivity | apply Hone; lia].
  - remember (S fuel) as f eqn:Hf. cbn [fmt.fmtDigits].
    assert (Hpow : 10 ^ Z.of_nat (S f) = 10 * 10 ^ Z.of_nat f).
    { rewrite Nat2Z.inj_succ, Z.pow_succ_r by lia. reflexivity. }
    destruct (Z.leb_spec 10 u) as [H|H].
    + assert (Hq : 0 < u / 10 < 10 ^ Z.of_nat f).
      { split; [apply Z.div_str_pos; lia|].
        apply Z.div_lt_upper_bound; lia. }
      subst f. destruct (IH (u / 10) Hq) as (c & rest & Hds & Hc).
      rewrite fmtDigits_acc, Hds. cbn [append].
      eexists _, _. split; [reflexivity | exact Hc].
    + eexists _, _. split; [reflexivity | apply Hone; lia].
Qed.

(** The verb [%d] writes the decimal rendering of an unsigned value. *)
Lemma fmtInteger_decimalOf (v : Z) :
  0 <= v < 2 ^ 64 -> decimalOf v (fmt.fmtInteger v).
Proof.
  intros Hv. destruct (fmtInteger_decimal v Hv) as (Hval & Hdig & Hne & _).
  repeat split; auto.
  destruct (Z.eq_dec v 0) as [->|Hnz]; [reflexivity|].
  unfold fmt.fmtInteger, fmt.fmtUnsigned.
  destruct (Z.ltb_spec v 0) as [H|H]; [lia|].
  destruct (fmtDigits_leading 19 v) as (c & rest & -> & Hc); [simpl; lia|].
  unfold noLeadingZero. rewrite Hc. destruct rest; reflexivity.
Qed.

Lemma EncodeToString_rawStdOf (bytes : list byte) :
  rawStdOf bytes (base64.EncodeToString bytes).
Proof.
  split; [apply EncodeToString_stdAlphabet|].
  split; [apply EncodeToString_length | apply DecodeString_EncodeToString].
Qed.

Section Records.

Variable IDKey : list byte -> list byte -> Z -> Z -> Z -> Z -> list byte.

(** C2. On success [GenerateFromPassword] returns exactly the dollar
    sign, [argon2id], [$v=] and the version, [$m=], [,t=] and [,p=] with
    the decimal renderings of memory, iterations and parallelism, then
    the salt and the derived key, each after a dollar sign and each in
    base64 with the standard alphabet and without padding.  The version
    is 19. *)
Theorem GenerateFromPassword_record
    (rand rand' : io.Reader) (pass : list byte) (p : option argon2id.Params)
    (record : string) :
  argon2id.wellTyped (effective p) ->
  argon2id.GenerateFromPassword IDKey rand pass p = ((record, None), rand') ->
  exists (salt : list byte) (dv dm dt dp es ek : string),
    let q := effective p in
    let key := IDKey pass salt (argon2id.Iterations q) (argon2id.Memory q)
                 (argon2id.Parallelism q) (argon2id.KeyLength q) in
    io.ReadFull rand (Z.to_nat (argon2id.SaltLength q)) = (Ok salt, rand') /\
    record = "$argon2id$v=" ++ dv ++ "$m=" ++ dm ++ ",t=" ++ dt ++ ",p=" ++ dp
               ++ "$" ++ es ++ "$" ++ ek /\
    decimalOf argon2.Version dv /\ dv = "19" /\
    decimalOf (argon2id.Memory q) dm /\
    decimalOf (argon2id.Iterations q) dt /\
    decimalOf (argon2id.Parallelism q) dp /\
    es = base64.EncodeToString salt /\ rawStdOf salt es /\
    ek = base64.EncodeToString key /\ rawStdOf key ek.
Proof.
  intros (Hm & Ht & Hp & _ & _) Hgen.
  destruct (GenerateFromPassword_Ok _ _ _ _ _ _ Hgen) as (salt & Hread & ->).
  exists salt. do 6 eexists. cbv zeta.
  split; [exact Hread|]. split; [apply Sprintf_record|].
  split; [apply fmtInteger_decimalOf; change argon2.Version with 19; lia|].
  split; [reflexivity|].
  split; [apply fmtInteger_decimalOf; lia|].
  split; [apply fmtInteger_decimalOf; lia|].
  split; [apply fmtInteger_decimalOf; lia|].
  split; [reflexivity|]. split; [apply EncodeToString_rawStdOf|].
  split; [reflexivity | apply EncodeToString_rawStdOf].
Qed.

(** C1. Round trip: when the primitive returns keys of the length it is
    asked for, the record [GenerateFromPassword] produces for a password
    and valid cost parameters verifies against the same password. *)
Theorem GenerateFromPassword_then_Compare
    (rand rand' : io.Reader) (pass : list byte) (p : option argon2id.Params)
    (record : string) :
  (forall (pw salt : list byte) (t m par keyLen : Z),
      0 <= keyLen < 2 ^ 32 ->
      Z.of_nat (List.length (IDKey pw salt t m par keyLen)) = keyLen) ->
  argon2id.valid (effective p) ->
  argon2id.GenerateFromPassword IDKey rand pass p = ((record, None), rand') ->
  argon2id.CompareHashAndPassword IDKey record pass = None.
Proof.
  intros Hlen [(Hm & Ht & Hp & Hs & Hk) _] Hgen.
  destruct (GenerateFromPassword_Ok _ _ _ _ _ _ Hgen) as (salt & Hread & ->).
  unfold argon2id.CompareHashAndPassword.
  rewrite decodeHash_record by assumption.
  cbn [argon2id.Iterations argon2id.Memory argon2id.Parallelism argon2id.KeyLength].
  rewrite Hlen by assumption.
  unfold uint32 at 1. rewrite Z.mod_small by assumption.
  rewrite ConstantTimeCompare_spec.
  destruct (list_eq_dec Byte.byte_eq_dec _ _) as [E|NE]; [reflexivity|].
  contradiction NE. reflexivity.
Qed.

End Records.

(** ** The package run on a stand-in primitive *)

Lemma toyKey_length (pw salt : list byte) (t m par keyLen : Z) :
  0 <= keyLen < 2 ^ 32 ->
  Z.of_nat (List.length (tests.toyKey pw salt t m par keyLen)) = keyLen.
Proof.
  intros Hk. unfold tests.toyKey.
  rewrite length_firstn, !length_app, repeat_length. lia.
Qed.

(** The record generated with the default parameters has the format of
    the package. *)
Lemma GenerateFromPassword_record_defaults :
  exists (salt : list byte) (dv dm dt dp es ek : string),
    "$argon2id$v=19$m=4096,t=10,p=2$AQIDBAUGBwgJCgsMDQ4PEBESExQVFhcYGRobHB0eHyA$Zm9vMTIzAQIDBAUGBwgJCgsMDQ4PEBESExQVFhcYGRobHB0eHyAqKioqKioqKioqKioqKioqKioqKioqKioqKg"
    = "$argon2id$v=" ++ dv ++ "$m=" ++ dm ++ ",t=" ++ dt ++ ",p=" ++ dp
        ++ "$" ++ es ++ "$" ++ ek /\
    decimalOf 19 dv /\ decimalOf 4096 dm /\ decimalOf 10 dt /\ decimalOf 2 dp /\
    rawStdOf salt es /\
    rawStdOf (tests.toyKey tests.password salt 10 4096 2 64) ek.
Proof.
  assert (Htyped : argon2id.wellTyped (effective None))
    by (unfold argon2id.wellTyped; simpl; lia).
  destruct (GenerateFromPassword_record tests.toyKey tests.entropy
              (skipn 32 tests.entropy) tests.password None
              "$argon2id$v=19$m=4096,t=10,p=2$AQIDBAUGBwgJCgsMDQ4PEBESExQVFhcYGRobHB0eHyA$Zm9vMTIzAQIDBAUGBwgJCgsMDQ4PEBESExQVFhcYGRobHB0eHyAqKioqKioqKioqKioqKioqKioqKioqKioqKg"
              Htyped ltac:(vm_compute; reflexivity))
    as (salt & dv & dm & dt & dp & es & ek & _ & Hrec & Hdv & _ & Hdm & Hdt & Hdp
        & _ & Hsalt & _ & Hkey).
  exists salt, dv, dm, dt, dp, es, ek.
  repeat split; try assumption; try apply Hdv; try apply Hdm; try apply Hdt;
    try apply Hdp; try apply Hsalt; try apply Hkey.
Defined.

(** The record generated with the default parameters verifies against
    its password. *)
Lemma GenerateFromPassword_then_Compare_defaults :
  argon2id.valid argon2id.defaultParams /\
  argon2id.CompareHashAndPassword tests.toyKey
    "$argon2id$v=19$m=4096,t=10,p=2$AQIDBAUGBwgJCgsMDQ4PEBESExQVFhcYGRobHB0eHyA$Zm9vMTIzAQIDBAUGBwgJCgsMDQ4PEBESExQVFhcYGRobHB0eHyAqKioqKioqKioqKioqKioqKioqKioqKioqKg"
    tests.password = None.
Proof.
  assert (Hvalid : argon2id.valid argon2id.defaultParams).
  { unfold argon2id.valid, argon2id.wellTyped, argon2id.allPositive; simpl. lia. }
  split; [exact Hvalid|].
  apply (GenerateFromPassword_then_Compare tests.toyKey tests.entropy
           (skipn 32 tests.entropy) tests.password None).
  - exact toyKey_length.
  - exact Hvalid.
  - vm_compute. reflexivity.
Defined.

(** ** The models on known inputs *)

(** The comment in [decodeHash] lists the six segments of its example. *)
Example Split_validRecord :
  strings.Split tests.validRecord "$"
  = [""; "argon2id"; "v=19"; "m=4096,t=3,p=1"; "82XldKYgqAqher7EuFzPNw";
     "O1Epnr+m1JYkgtWcgVLID39ro6He105HTFnE+SinJyM"].
Proof. reflexivity. Qed.

Example Split_empty : strings.Split "" "$" = [""].
Proof. reflexivity. Qed.

(** The test vectors of RFC 4648, without their padding. *)
Example EncodeToString_rfc4648 :
  map (fun s => base64.EncodeToString (map byte_of_ascii (list_ascii_of_string s)))
    [""; "f"; "fo"; "foo"; "foob"; "fooba"; "foobar"]
  = [""; "Zg"; "Zm8"; "Zm9v"; "Zm9vYg"; "Zm9vYmE"; "Zm9vYmFy"].
Proof. reflexivity. Qed.

(** Padding is corrupt input for the raw encoding; a line break is
    skipped; one character alone is not a quantum. *)
Example DecodeString_rejects_padding :
  base64.DecodeString "Zg==" = Err (CorruptInputError 2) /\
  base64.DecodeString ("Zm9v" ++ String "010" "YmFy")
  = base64.DecodeString "Zm9vYmFy" /\
  base64.DecodeString "Zm9vY" = Err (CorruptInputError 4).
Proof. repeat split; reflexivity. Qed.

(** [Sscanf] skips spaces before a number, takes a sign for an [int],
    leaves what follows the last verb unread, and reports what it misses. *)
Example Sscanf_version_clauses :
  fmt.Sscanf "v=19" "v=%d" [fmt.IntPtr] = Ok [19] /\
  fmt.Sscanf "v= +19 and more" "v=%d" [fmt.IntPtr] = Ok [19] /\
  fmt.Sscanf "v=-19" "v=%d" [fmt.IntPtr] = Ok [-19] /\
  fmt.Sscanf "v=" "v=%d" [fmt.IntPtr] = Err EOF /\
  fmt.Sscanf "v" "v=%d" [fmt.IntPtr] = Err ErrUnexpectedEOF /\
  fmt.Sscanf "m=4096,t=3,p=1" "v=%d" [fmt.IntPtr]
  = Err (ScanError "input does not match format") /\
  fmt.Sscanf "v=x" "v=%d" [fmt.IntPtr] = Err (ScanError "expected integer").
Proof. repeat split; reflexivity. Qed.

Example Sscanf_parameter_clauses :
  fmt.Sscanf "m=4096,t=3,p=1" "m=%d,t=%d,p=%d"
    [fmt.Uint32Ptr; fmt.Uint32Ptr; fmt.Uint8Ptr] = Ok [4096; 3; 1] /\
  fmt.Sscanf "m=4294967295,t=0,p=255" "m=%d,t=%d,p=%d"
    [fmt.Uint32Ptr; fmt.Uint32Ptr; fmt.Uint8Ptr] = Ok [4294967295; 0; 255] /\
  fmt.Sscanf "m=4096,t=3,p=256" "m=%d,t=%d,p=%d"
    [fmt.Uint32Ptr; fmt.Uint32Ptr; fmt.Uint8Ptr]
  = Err (ScanError "unsigned integer overflow on token 256") /\
  fmt.Sscanf "m=4096,t=-3,p=1" "m=%d,t=%d,p=%d"
    [fmt.Uint32Ptr; fmt.Uint32Ptr; fmt.Uint8Ptr]
  = Err (ScanError "expected integer").
Proof. repeat split; reflexivity. Qed.

Example ConstantTimeCompare_cases :
  subtle.ConstantTimeCompare [x01; x02] [x01; x02] = 1 /\
  subtle.ConstantTimeCompare [x01; x02] [x01; x03] = 0 /\
  subtle.ConstantTimeCompare [x01; x02] [x01] = 0 /\
  subtle.ConstantTimeCompare [] [] = 1.
Proof. repeat split; reflexivity. Qed.

(** The test table of [TestCompareHashAndPassword], as far as it does not
    depend on the primitive. *)
Example decodeHash_test_table :
  argon2id.decodeHash tests.notArgon2id = Err ErrIncompatibleVersion /\
  argon2id.decodeHash tests.invalidFormat = Err ErrInvalidHash /\
  (exists p salt key, argon2id.decodeHash tests.validRecord = Ok (p, salt, key) /\
                      p = argon2id.mkParams 4096 3 1 16 32).
Proof.
  split; [reflexivity|]. split; [reflexivity|].
  eexists _, _, _. split; vm_compute; reflexivity.
Qed.

(** Verification on the stand-in primitive: the generated record
    verifies against its password and against no other; a decode error
    comes back as it is. *)
Example CompareHashAndPassword_cases :
  let record :=
    fst (fst (argon2id.GenerateFromPassword tests.toyKey tests.entropy
                tests.password (Some tests.generateParams))) in
  argon2id.CompareHashAndPassword tests.toyKey record tests.password = None /\
  argon2id.CompareHashAndPassword tests.toyKey record [x77; x72; x6f; x6e; x67]
  = Some ErrPasswordNotMatch /\
  argon2id.CompareHashAndPassword tests.toyKey tests.notArgon2id tests.password
  = Some ErrIncompatibleVersion /\
  argon2id.CompareHashAndPassword tests.toyKey tests.invalidFormat tests.password
  = Some ErrInvalidHash.
Proof. cbv zeta. repeat split; vm_compute; reflexivity. Qed.

(** * Further properties of the package *)

(** ** Generation followed by decoding *)

Lemma ReadFull_Ok (r r' : io.Reader) (n : nat) (buf : list byte) :
  io.ReadFull r n = (Ok buf, r') ->
  buf = firstn n r /\ r' = skipn n r /\ (n <= List.length r)%nat.
Proof.
  unfold io.ReadFull. destruct (Nat.leb_spec n (List.length r)) as [H|H].
  - intros [= <- <-]. auto.
  - destruct r; discriminate.
Qed.

Section Further.

Variable IDKey : list byte -> list byte -> Z -> Z -> Z -> Z -> list byte.

(** The record of a successful generation, decoded. *)
Lemma decodeHash_generated
    (rand rand' : io.Reader) (pass : list byte) (p : option argon2id.Params)
    (record : string) :
  keysHaveLength IDKey ->
  argon2id.wellTyped (effective p) ->
  argon2id.GenerateFromPassword IDKey rand pass p = ((record, None), rand') ->
  argon2id.decodeHash record
  = Ok (effective p, firstn (Z.to_nat (argon2id.SaltLength (effective p))) rand,
        IDKey pass (firstn (Z.to_nat (argon2id.SaltLength (effective p))) rand)
          (argon2id.Iterations (effective p)) (argon2id.Memory (effective p))
          (argon2id.Parallelism (effective p)) (argon2id.KeyLength (effective p))).
Proof.
  intros Hlen (Hm & Ht & Hp & Hs & Hk) Hgen.
  destruct (GenerateFromPassword_Ok _ _ _ _ _ _ Hgen) as (salt & Hread & ->).
  destruct (ReadFull_Ok _ _ _ _ Hread) as (-> & -> & Hle).
  rewrite decodeHash_record by assumption.
  rewrite firstn_length_le, Z2Nat.id, Hlen by (assumption || lia).
  unfold uint32. rewrite !Z.mod_small by assumption.
  destruct (effective p); reflexivity.
Qed.

(** X1. Decoding a generated record gives back all five parameters, the
    salt, which is the first [SaltLength] bytes of the random source, and
    the key derived from password and salt; the random source is left
    just past the salt. *)
Theorem decodeHash_GenerateFromPassword
    (rand rand' : io.Reader) (pass : list byte) (p : option argon2id.Params)
    (record : string) :
  keysHaveLength IDKey ->
  argon2id.wellTyped (effective p) ->
  argon2id.GenerateFromPassword IDKey rand pass p = ((record, None), rand') ->
  let q := effective p in
  let salt := firstn (Z.to_nat (argon2id.SaltLength q)) rand in
  argon2id.decodeHash record
  = Ok (q, salt,
        IDKey pass salt (argon2id.Iterations q) (argon2id.Memory q)
          (argon2id.Parallelism q) (argon2id.KeyLength q)) /\
  rand' = skipn (Z.to_nat (argon2id.SaltLength q)) rand /\
  Z.of_nat (List.length salt) = argon2id.SaltLength q.
Proof.
  intros Hlen Hty Hgen. cbv zeta.
  split; [exact (decodeHash_generated _ _ _ _ _ Hlen Hty Hgen)|].
  destruct Hty as (_ & _ & _ & Hs & _).
  destruct (GenerateFromPassword_Ok _ _ _ _ _ _ Hgen) as (salt & Hread & _).
  destruct (ReadFull_Ok _ _ _ _ Hread) as (_ & -> & Hle).
  split; [reflexivity|].
  rewrite firstn_length_le by exact Hle. lia.
Qed.

(** X2. A generated record never fails to decode on verification:
    against any password it gives no error exactly when the primitive
    derives the stored key from that password, and [ErrPasswordNotMatch]
    otherwise. *)
Theorem CompareHashAndPassword_generated
    (rand rand' : io.Reader) (pass other : list byte)
    (p : option argon2id.Params) (record : string) :
  keysHaveLength IDKey ->
  argon2id.wellTyped (effective p) ->
  argon2id.GenerateFromPassword IDKey rand pass p = ((record, None), rand') ->
  let q := effective p in
  let salt := firstn (Z.to_nat (argon2id.SaltLength q)) rand in
  let derive pw := IDKey pw salt (argon2id.Iterations q) (argon2id.Memory q)
                     (argon2id.Parallelism q) (argon2id.KeyLength q) in
  (argon2id.CompareHashAndPassword IDKey record other = None <->
   derive other = derive pass) /\
  (argon2id.CompareHashAndPassword IDKey record other = Some ErrPasswordNotMatch <->
   derive other <> derive pass).
Proof.
  intros Hlen Hty Hgen. cbv zeta.
  pose proof (decodeHash_generated _ _ _ _ _ Hlen Hty Hgen) as Hd.
  unfold argon2id.CompareHashAndPassword. rewrite Hd.
  rewrite ConstantTimeCompare_spec.
  destruct (list_eq_dec Byte.byte_eq_dec _ _) as [E|NE]; simpl.
  - split; split; auto; try discriminate. intros H; contradiction.
  - split; split; auto; try discriminate. intros H; contradiction.
Qed.

(** X3. When generation fails the returned string is empty, the error is
    the one of the random source, and the returned string is rejected by
    verification with [ErrInvalidHash] whatever the password. *)
Theorem GenerateFromPassword_failure
    (rand rand' : io.Reader) (pass other : list byte)
    (p : option argon2id.Params) (record : string) (e : error) :
  argon2id.GenerateFromPassword IDKey rand pass p = ((record, Some e), rand') ->
  record = EmptyString /\
  fromLibrary e /\
  fst (io.ReadFull rand (Z.to_nat (argon2id.SaltLength (effective p)))) = Err e /\
  argon2id.CompareHashAndPassword IDKey record other = Some ErrInvalidHash.
Proof.
  unfold argon2id.GenerateFromPassword. fold (effective p).
  destruct (io.ReadFull rand (Z.to_nat (argon2id.SaltLength (effective p))))
    as [[salt|e'] r1] eqn:Hread; [discriminate|].
  intros [= <- <- <-].
  split; [reflexivity|]. split; [|split; reflexivity].
  unfold io.ReadFull in Hread.
  destruct (Nat.leb _ _); [discriminate|].
  destruct rand; injection Hread as <- _; exact I.
Qed.

(** X4. The record determines what it was made from: two successful
    generations that return the same record used the same memory,
    iterations, parallelism and salt length, drew the same salt and
    derived the same key. *)
Theorem GenerateFromPassword_injective
    (rand1 rand1' rand2 rand2' : io.Reader) (pass1 pass2 : list byte)
    (p1 p2 : option argon2id.Params) (record : string) :
  argon2id.wellTyped (effective p1) -> argon2id.wellTyped (effective p2) ->
  argon2id.GenerateFromPassword IDKey rand1 pass1 p1 = ((record, None), rand1') ->
  argon2id.GenerateFromPassword IDKey rand2 pass2 p2 = ((record, None), rand2') ->
  let q1 := effective p1 in
  let q2 := effective p2 in
  let salt1 := firstn (Z.to_nat (argon2id.SaltLength q1)) rand1 in
  let salt2 := firstn (Z.to_nat (argon2id.SaltLength q2)) rand2 in
  argon2id.Memory q1 = argon2id.Memory q2 /\
  argon2id.Iterations q1 = argon2id.Iterations q2 /\
  argon2id.Parallelism q1 = argon2id.Parallelism q2 /\
  argon2id.SaltLength q1 = argon2id.SaltLength q2 /\
  salt1 = salt2 /\
  IDKey pass1 salt1 (argon2id.Iterations q1) (argon2id.Memory q1)
    (argon2id.Parallelism q1) (argon2id.KeyLength q1)
  = IDKey pass2 salt2 (argon2id.Iterations q2) (argon2id.Memory q2)
      (argon2id.Parallelism q2) (argon2id.KeyLength q2).
Proof.
  intros (Hm1 & Ht1 & Hp1 & Hs1 & _) (Hm2 & Ht2 & Hp2 & Hs2 & _) Hg1 Hg2.
  cbv zeta.
  destruct (GenerateFromPassword_Ok _ _ _ _ _ _ Hg1) as (salt1 & Hr1 & Hrec1).
  destruct (GenerateFromPassword_Ok _ _ _ _ _ _ Hg2) as (salt2 & Hr2 & Hrec2).
  destruct (ReadFull_Ok _ _ _ _ Hr1) as (E1 & _ & Hle1).
  destruct (ReadFull_Ok _ _ _ _ Hr2) as (E2 & _ & Hle2).
  pose proof (decodeHash_record _ _ _ salt1
                (IDKey pass1 salt1 (argon2id.Iterations (effective p1))
                   (argon2id.Memory (effective p1))
                   (argon2id.Parallelism (effective p1))
                   (argon2id.KeyLength (effective p1))) Hm1 Ht1 Hp1) as D1.
  pose proof (decodeHash_record _ _ _ salt2
                (IDKey pass2 salt2 (argon2id.Iterations (effective p2))
                   (argon2id.Memory (effective p2))
                   (argon2id.Parallelism (effective p2))
                   (argon2id.KeyLength (effective p2))) Hm2 Ht2 Hp2) as D2.
  rewrite <- Hrec1 in D1. rewrite <- Hrec2, D1 in D2.
  injection D2 as Em Et Ep _ _ Esalt Ekey.
  rewrite <- E1, <- E2.
  repeat split; auto.
  assert (Hl1 : List.length salt1 = Z.to_nat (argon2id.SaltLength (effective p1)))
    by (rewrite E1; apply firstn_length_le; exact Hle1).
  assert (Hl2 : List.length salt2 = Z.to_nat (argon2id.SaltLength (effective p2)))
    by (rewrite E2; apply firstn_length_le; exact Hle2).
  rewrite Esalt in Hl1. lia.
Qed.

(** X5. Tampering with the key: of two records that decode to the same
    parameters and salt but to different keys, at most one verifies a
    given password; when the first does, the second gives
    [ErrPasswordNotMatch]. *)
Theorem CompareHashAndPassword_tampered_key
    (hash1 hash2 : string) (p : argon2id.Params) (salt key1 key2 pass : list byte) :
  argon2id.decodeHash hash1 = Ok (p, salt, key1) ->
  argon2id.decodeHash hash2 = Ok (p, salt, key2) ->
  key1 <> key2 ->
  argon2id.CompareHashAndPassword IDKey hash1 pass = None ->
  argon2id.CompareHashAndPassword IDKey hash2 pass = Some ErrPasswordNotMatch.
Proof.
  intros H1 H2 Hne. unfold argon2id.CompareHashAndPassword.
  rewrite H1, H2, !ConstantTimeCompare_spec.
  destruct (list_eq_dec Byte.byte_eq_dec _ key1) as [E1|N1]; [|discriminate].
  intros _.
  destruct (list_eq_dec Byte.byte_eq_dec _ key2) as [E2|N2]; [|reflexivity].
  congruence.
Qed.

End Further.

(** ** Runes that cannot be digits *)

Lemma lor_ge_64 (a b : Z) :
  0 <= a -> 0 <= b -> 64 <= a \/ 64 <= b -> 64 <= Z.lor a b.
Proof.
  intros Ha Hb Hor.
  assert (Hl : 0 <= Z.lor a b) by (apply Z.lor_nonneg; auto).
  destruct (Z.lt_ge_cases (Z.lor a b) 64) as [Hlt|]; [exfalso|assumption].
  assert (Hlog : Z.log2 (Z.lor a b) < 6).
  { destruct (Z.eq_dec (Z.lor a b) 0) as [->|]; [simpl; lia|].
    apply Z.log2_lt_pow2; simpl; lia. }
  rewrite Z.log2_lor in Hlog by assumption.
  destruct Hor as [H|H];
    [assert (6 <= Z.log2 a) by (apply Z.log2_le_pow2; simpl; lia)
    |assert (6 <= Z.log2 b) by (apply Z.log2_le_pow2; simpl; lia)]; lia.
Qed.

Lemma shiftl_land_ones (x mask k : Z) (n : Z) :
  mask = Z.ones n -> 0 <= n -> 0 <= k ->
  Z.shiftl (Z.land x mask) k = (x mod 2 ^ n) * 2 ^ k.
Proof.
  intros -> Hn Hk. rewrite Z.land_ones, Z.shiftl_mul_pow2 by lia. reflexivity.
Qed.

Lemma runes_endsNumber (junk : string) : endsNumber junk -> stops (utf8.runes junk).
Proof.
  destruct junk as [|c0 r0]; [intros _; exact I|].
  cbn [endsNumber]. unfold isDigit. intros Hc.
  pose proof (asciiZ_range c0) as R0.
  assert (Herr : (48 <=? utf8.RuneError) && (utf8.RuneError <=? 57) = false)
    by reflexivity.
  assert (Hbig : forall v, 64 <= v -> (48 <=? v) && (v <=? 57) = false).
  { intros v Hv. destruct (Z.leb_spec v 57); [lia|]. apply andb_false_r. }
  cbn [utf8.runes].
  destruct (Z.ltb_spec (asciiZ c0) 128) as [H|H]; [exact Hc|].
  destruct (Z.ltb_spec (asciiZ c0) 194) as [H1|H1]; [exact Herr|].
  destruct (Z.ltb_spec 244 (asciiZ c0)) as [H2|H2]; [exact Herr|].
  cbn [orb].
  destruct (utf8.acceptRange (asciiZ c0)) as [lo hi] eqn:Hacc.
  destruct r0 as [|c1 r1]; [exact Herr|].
  pose proof (asciiZ_range c1) as R1.
  unfold utf8.outside.
  destruct (Z.ltb_spec (asciiZ c1) lo) as [H3|H3]; [exact Herr|].
  destruct (Z.ltb_spec hi (asciiZ c1)) as [H4|H4]; [exact Herr|].
  cbn [orb].
  assert (N0 : forall m, 0 <= Z.land (asciiZ c0) m)
    by (intros; apply Z.land_nonneg; lia).
  assert (N1 : forall m, 0 <= Z.land (asciiZ c1) m)
    by (intros; apply Z.land_nonneg; lia).
  destruct (Z.ltb_spec (asciiZ c0) 224) as [H5|H5].
  { (* two bytes *)
    cbn [stops]. apply Hbig, lor_ge_64; try apply Z.shiftl_nonneg; auto.
    left. rewrite (shiftl_land_ones _ _ _ 5) by (reflexivity || lia).
    change (2 ^ 5) with 32. change (2 ^ 6) with 64.
    Z.div_mod_to_equations. lia. }
  destruct r1 as [|c2 r2]; [exact Herr|].
  pose proof (asciiZ_range c2) as R2.
  assert (N2 : forall m, 0 <= Z.land (asciiZ c2) m)
    by (intros; apply Z.land_nonneg; lia).
  destruct (Z.ltb_spec (asciiZ c2) 128) as [H6|H6]; [exact Herr|].
  destruct (Z.ltb_spec 191 (asciiZ c2)) as [H7|H7]; [exact Herr|].
  cbn [orb].
  assert (Hlo : asciiZ c0 = 224 -> 160 <= lo).
  { intros E. unfold utf8.acceptRange in Hacc. rewrite E in Hacc.
    injection Hacc as <- _. lia. }
  assert (Hlo4 : asciiZ c0 = 240 -> 144 <= lo).
  { intros E. unfold utf8.acceptRange in Hacc. rewrite E in Hacc.
    injection Hacc as <- _. lia. }
  assert (Hhi : hi <= 191).
  { unfold utf8.acceptRange in Hacc.
    repeat match type of Hacc with
           | (if ?b then _ else _) = _ => destruct b
           end; injection Hacc as _ <-; lia. }
  destruct (Z.ltb_spec (asciiZ c0) 240) as [H8|H8].
  { (* three bytes *)
    cbn [stops]. apply Hbig, lor_ge_64;
      [apply Z.lor_nonneg; split; apply Z.shiftl_nonneg; auto | auto |].
    left. apply lor_ge_64; try apply Z.shiftl_nonneg; auto.
    rewrite (shiftl_land_ones _ _ _ 4), (shiftl_land_ones _ _ _ 6)
      by (reflexivity || lia).
    change (2 ^ 4) with 16. change (2 ^ 6) with 64. change (2 ^ 12) with 4096.
    destruct (Z.eq_dec (asciiZ c0) 224) as [E|NE].
    - right. specialize (Hlo E). Z.div_mod_to_equations. lia.
    - left. Z.div_mod_to_equations. lia. }
  destruct r2 as [|c3 r3]; [exact Herr|].
  pose proof (asciiZ_range c3) as R3.
  destruct (Z.ltb_spec (asciiZ c3) 128) as [H9|H9]; [exact Herr|].
  destruct (Z.ltb_spec 191 (asciiZ c3)) as [H10|H10]; [exact Herr|].
  cbn [orb stops].
  assert (N3 : forall m, 0 <= Z.land (asciiZ c3) m)
    by (intros; apply Z.land_nonneg; lia).
  apply Hbig, lor_ge_64;
    [repeat (apply Z.lor_nonneg; split); try apply Z.shiftl_nonneg; auto | auto |].
  left. apply lor_ge_64;
    [apply Z.lor_nonneg; split; apply Z.shiftl_nonneg; auto
    |apply Z.shiftl_nonneg; auto|].
  left. apply lor_ge_64; try apply Z.shiftl_nonneg; auto.
  rewrite (shiftl_land_ones _ _ _ 3), (shiftl_land_ones _ _ _ 6)
    by (reflexivity || lia).
  change (2 ^ 3) with 8. change (2 ^ 6) with 64.
  change (2 ^ 12) with 4096. change (2 ^ 18) with 262144.
  destruct (Z.eq_dec (asciiZ c0) 240) as [E|NE].
  - right. specialize (Hlo4 E). Z.div_mod_to_equations. lia.
  - left. Z.div_mod_to_equations. lia.
Qed.

Lemma runes_ASCII_app (a b : string) :
  allOf isASCII a = true -> utf8.runes (a ++ b) = (asciiRunes a ++ utf8.runes b)%list.
Proof.
  induction a as [|c a IH]; [reflexivity|].
  cbn [allOf]. intros H. apply andb_true_iff in H as [Hc Ha].
  cbn [append utf8.runes asciiRunes app]. unfold isASCII in Hc.
  rewrite Hc, (IH Ha). reflexivity.
Qed.

(** ** Numerals as the scanner takes them *)

Lemma numeralBelow_nonneg (bound : Z) (ds : string) :
  numeralBelow bound ds -> 0 <= decimalValue ds.
Proof.
  intros (_ & Hd & _). apply valueFrom_ge; auto. lia.
Qed.

Lemma fmtInteger_numeralBelow (bound v : Z) :
  0 <= v < bound -> bound <= 2 ^ 64 -> numeralBelow bound (fmt.fmtInteger v).
Proof.
  intros Hv Hb. destruct (fmtInteger_decimal v ltac:(lia)) as (Hval & Hd & Hne & Hl).
  repeat split; auto; [lia|]. change (2 ^ 28) with 268435456. lia.
Qed.

Lemma digit_not_sign (c : ascii) :
  isDigit c = true ->
  fmt.indexRune fmt.sign (asciiZ c) = false /\
  Ascii.eqb c "-" = false /\ Ascii.eqb c "+" = false.
Proof.
  unfold isDigit. intros H. apply andb_true_iff in H as [H1 H2].
  apply Z.leb_le in H1. split.
  - unfold fmt.indexRune. change (utf8.runes fmt.sign) with [43; 45].
    cbn [existsb].
    destruct (Z.eqb_spec (asciiZ c) 43); [lia|].
    destruct (Z.eqb_spec (asciiZ c) 45); [lia|]. reflexivity.
  - split; apply Ascii.eqb_neq; intros ->; vm_compute in H1; contradiction.
Qed.

(** [scanInt] on the digits of a value that fits an [int]. *)
Lemma scanInt_digits (ds : string) (rest : list Z) (n : Z) :
  ds <> EmptyString -> allOf isDigit ds = true -> stops rest ->
  decimalValue ds < 2 ^ 63 ->
  n + Z.of_nat (String.length ds) <= fmt.hugeWid ->
  fmt.scanInt "d" 64 (fmt.mkss (asciiRunes ds ++ rest)%list n)
  = Ok (decimalValue ds, fmt.mkss rest (n + Z.of_nat (String.length ds))).
Proof.
  intros Hne Hd Hstop Hv Hn.
  assert (Hv0 : 0 <= decimalValue ds) by (apply valueFrom_ge; auto; lia).
  destruct ds as [|c ds']; [contradiction|].
  pose proof Hd as Hd'. cbn [allOf] in Hd'. apply andb_true_iff in Hd' as [Hc _].
  destruct (digit_not_sign c Hc) as (Hs1 & Hs2 & Hs3).
  pose proof Hn as Hn'. cbn [String.length] in Hn'. rewrite Nat2Z.inj_succ in Hn'.
  unfold fmt.scanInt, fmt.SkipSpace. cbn [fmt.rs fmt.count].
  cbn [asciiRunes app]. rewrite skipRunes_digit by exact Hc. cbn [bind].
  unfold fmt.notEOF at 1, fmt.ReadRune at 1. cbn [fmt.rs fmt.count].
  destruct (Z.leb_spec fmt.hugeWid n) as [H|H]; [lia|]. cbn [bind].
  unfold fmt.getBase. cbn [Ascii.eqb Bool.eqb andb bind].
  unfold fmt.accept, fmt.ReadRune. cbn [fmt.rs fmt.count].
  destruct (Z.leb_spec fmt.hugeWid n) as [H'|H']; [lia|].
  rewrite Hs1.
  change (asciiZ c :: (asciiRunes ds' ++ rest)%list)
    with (asciiRunes (String c ds') ++ rest)%list.
  rewrite scanNumber_digits by assumption. cbn [bind].
  unfold strconv.ParseInt. rewrite Hs2, Hs3. cbn [orb negb andb].
  unfold strconv.parseUint.
  rewrite digitLoop_digits by (auto; fold (decimalValue (String c ds')); lia).
  fold (decimalValue (String c ds')).
  change (2 ^ (64 - 1)) with (2 ^ 63).
  destruct (Z.leb_spec (2 ^ 63) (decimalValue (String c ds'))) as [H2|H2]; [lia|].
  cbn [bind]. change (64 - 64) with 0.
  rewrite Z.shiftl_0_r, Z.shiftr_0_r.
  assert (Hi : fmt.int64 (decimalValue (String c ds')) = decimalValue (String c ds')).
  { unfold fmt.int64. rewrite Z.mod_small by lia. lia. }
  rewrite Hi, Z.eqb_refl. reflexivity.
Qed.

(** The verb [%d] on the digits of an [int] operand. *)
Lemma doScanf_signed (format : string) (a : list fmt.operand)
    (ds : string) (rest : list Z) (n : Z) :
  ds <> EmptyString -> allOf isDigit ds = true -> stops rest ->
  decimalValue ds < 2 ^ 63 ->
  n + Z.of_nat (String.length ds) <= fmt.hugeWid ->
  fmt.doScanf (String "%" (String "d" format)) (fmt.IntPtr :: a)
    (fmt.mkss (asciiRunes ds ++ rest)%list n)
  = (vs <- fmt.doScanf format a
             (fmt.mkss rest (n + Z.of_nat (String.length ds))) ;;
     Ok (decimalValue ds :: vs)).
Proof.
  intros Hne Hd Hstop Hv Hn.
  assert (Hv0 : 0 <= decimalValue ds) by (apply valueFrom_ge; auto; lia).
  cbn [fmt.doScanf Ascii.eqb Bool.eqb andb].
  unfold fmt.SkipSpace. cbn [fmt.rs fmt.count].
  assert (Hskip : fmt.skipRunes (asciiRunes ds ++ rest)%list n
                  = Ok (fmt.mkss (asciiRunes ds ++ rest)%list n)).
  { destruct ds as [|c ds]; [contradiction|].
    cbn [allOf] in Hd. apply andb_true_iff in Hd as [Hc _].
    cbn [asciiRunes app]. now apply skipRunes_digit. }
  rewrite Hskip. cbn [bind fmt.scanOne].
  rewrite scanInt_digits by assumption. cbn [bind].
  unfold fmt.int64. rewrite Z.mod_small by lia.
  replace (decimalValue ds + 2 ^ 63 - 2 ^ 63) with (decimalValue ds) by lia.
  reflexivity.
Qed.

(** The version clause, with leading zeros and text after the number. *)
Lemma Sscanf_version_lenient (dv junk : string) :
  numeralBelow (2 ^ 63) dv -> endsNumber junk ->
  fmt.Sscanf ("v=" ++ dv ++ junk) "v=%d" [fmt.IntPtr] = Ok [decimalValue dv].
Proof.
  intros (Hne & Hd & Hv & Hl) Hj. unfold fmt.Sscanf.
  replace ("v=" ++ dv ++ junk) with (("v=" ++ dv) ++ junk)
    by (now rewrite append_assoc).
  rewrite runes_ASCII_app
    by (rewrite allOf_app, (allOf_impl _ _ dv isDigit_isASCII Hd); reflexivity).
  rewrite asciiRunes_app.
  change (asciiRunes "v=") with [asciiZ "v"; asciiZ "="]. cbn [app].
  change (2 ^ 28) with 268435456 in Hl.
  rewrite 2 doScanf_literal
    by (reflexivity || (change fmt.hugeWid with 1073741824; lia)).
  rewrite doScanf_signed
    by (auto using runes_endsNumber; change fmt.hugeWid with 1073741824; lia).
  reflexivity.
Qed.

(** The parameter clause, with leading zeros and text after the last
    number. *)
Lemma Sscanf_parameters_lenient (dm dt dp junk : string) :
  numeralBelow (2 ^ 32) dm -> numeralBelow (2 ^ 32) dt -> numeralBelow (2 ^ 8) dp ->
  endsNumber junk ->
  fmt.Sscanf ("m=" ++ dm ++ ",t=" ++ dt ++ ",p=" ++ dp ++ junk)
    "m=%d,t=%d,p=%d" [fmt.Uint32Ptr; fmt.Uint32Ptr; fmt.Uint8Ptr]
  = Ok [decimalValue dm; decimalValue dt; decimalValue dp].
Proof.
  intros (Nm & Dm & Vm & Lm) (Nt & Dt & Vt & Lt) (Np & Dp & Vp & Lp) Hj.
  unfold fmt.Sscanf.
  replace ("m=" ++ dm ++ ",t=" ++ dt ++ ",p=" ++ dp ++ junk)
    with (("m=" ++ dm ++ ",t=" ++ dt ++ ",p=" ++ dp) ++ junk)
    by (repeat (rewrite append_assoc; cbn [append]); reflexivity).
  rewrite runes_ASCII_app.
  2:{ rewrite !allOf_app.
      rewrite (allOf_impl _ _ dm isDigit_isASCII Dm),
              (allOf_impl _ _ dt isDigit_isASCII Dt),
              (allOf_impl _ _ dp isDigit_isASCII Dp).
      reflexivity. }
  rewrite !asciiRunes_app.
  change (asciiRunes "m=") with [asciiZ "m"; asciiZ "="].
  change (asciiRunes ",t=") with [asciiZ ","; asciiZ "t"; asciiZ "="].
  change (asciiRunes ",p=") with [asciiZ ","; asciiZ "p"; asciiZ "="].
  cbn [app]. repeat (rewrite <- app_assoc; cbn [app]).
  change (2 ^ 28) with 268435456 in *.
  assert (Hcomma : forall l, stops (asciiZ "," :: l)) by (intros; reflexivity).
  rewrite 2 doScanf_literal
    by (reflexivity || (change fmt.hugeWid with 1073741824; lia)).
  rewrite (doScanf_unsigned fmt.Uint32Ptr)
    by (try discriminate; auto; cbn [bitsOf];
        try (change fmt.hugeWid with 1073741824); lia).
  rewrite 3 doScanf_literal
    by (reflexivity || (change fmt.hugeWid with 1073741824; lia)).
  rewrite (doScanf_unsigned fmt.Uint32Ptr)
    by (try discriminate; auto; cbn [bitsOf];
        try (change fmt.hugeWid with 1073741824); lia).
  rewrite 3 doScanf_literal
    by (reflexivity || (change fmt.hugeWid with 1073741824; lia)).
  rewrite (doScanf_unsigned fmt.Uint8Ptr)
    by (try discriminate; auto using runes_endsNumber; cbn [bitsOf];
        try (change fmt.hugeWid with 1073741824); lia).
  reflexivity.
Qed.

(** ** Records that are not in the package's own format *)

(** The six segments of a record with text after the version and after
    the parallelism, and with a leading segment. *)
Lemma lenient_segments (e0 dv jv dm dt dp jp es ek : string) :
  e0 ++ "$argon2id$v=" ++ dv ++ jv ++ "$m=" ++ dm ++ ",t=" ++ dt ++ ",p=" ++ dp
     ++ jp ++ "$" ++ es ++ "$" ++ ek
  = e0 ++ String "$" ("argon2id" ++ String "$" (("v=" ++ dv ++ jv) ++ String "$"
      (("m=" ++ dm ++ ",t=" ++ dt ++ ",p=" ++ dp ++ jp) ++ String "$"
         (es ++ String "$" ek)))).
Proof.
  f_equal. cbn [append]. repeat (rewrite append_assoc; cbn [append]). reflexivity.
Qed.

Lemma numeralBelow_no_dollar (bound : Z) (ds : string) :
  numeralBelow bound ds -> strings.Contains ds "$" = false.
Proof. intros (_ & Hd & _). now apply digits_no_dollar. Qed.

(** What [decodeHash] makes of a record whose version clause and
    parameter clause scan. *)
Lemma decodeHash_lenient_value (e0 dv jv dm dt dp jp es ek : string) :
  numeralBelow (2 ^ 63) dv -> decimalValue dv = argon2.Version -> endsNumber jv ->
  numeralBelow (2 ^ 32) dm -> numeralBelow (2 ^ 32) dt -> numeralBelow (2 ^ 8) dp ->
  endsNumber jp ->
  strings.Contains e0 "$" = false -> strings.Contains jv "$" = false ->
  strings.Contains jp "$" = false ->
  strings.Contains es "$" = false -> strings.Contains ek "$" = false ->
  argon2id.decodeHash
    (e0 ++ "$argon2id$v=" ++ dv ++ jv ++ "$m=" ++ dm ++ ",t=" ++ dt ++ ",p=" ++ dp
        ++ jp ++ "$" ++ es ++ "$" ++ ek)
  = (salt <- base64.DecodeString es ;;
     key <- base64.DecodeString ek ;;
     Ok ({| argon2id.Memory := decimalValue dm;
            argon2id.Iterations := decimalValue dt;
            argon2id.Parallelism := decimalValue dp;
            argon2id.SaltLength := uint32 (Z.of_nat (List.length salt));
            argon2id.KeyLength := uint32 (Z.of_nat (List.length key)) |},
         salt, key)).
Proof.
  intros Hdv Hv Hjv Hdm Hdt Hdp Hjp C0 Cjv Cjp Ces Cek.
  rewrite lenient_segments.
  erewrite decodeHash_six.
  2:{ apply Split_six; try assumption; try reflexivity.
      - rewrite !Contains_app, (numeralBelow_no_dollar _ _ Hdv), Cjv. reflexivity.
      - rewrite !Contains_app, (numeralBelow_no_dollar _ _ Hdm),
          (numeralBelow_no_dollar _ _ Hdt), (numeralBelow_no_dollar _ _ Hdp), Cjp.
        reflexivity. }
  rewrite Sscanf_version_lenient by assumption. cbn [bind nth].
  rewrite Hv, Z.eqb_refl.
  change (String.eqb "argon2id" "argon2id") with true. cbn [negb orb].
  rewrite Sscanf_parameters_lenient by assumption. cbn [bind nth].
  reflexivity.
Qed.

(** X6. Records outside the package's own format are accepted: a
    leading segment, leading zeros in the numbers, and text after the
    version and after the parallelism are all ignored, and such a record
    decodes exactly as the record the package would write for the same
    values. *)
Theorem decodeHash_lenient (e0 dv jv dm dt dp jp es ek : string) :
  numeralBelow (2 ^ 63) dv -> decimalValue dv = argon2.Version -> endsNumber jv ->
  numeralBelow (2 ^ 32) dm -> numeralBelow (2 ^ 32) dt -> numeralBelow (2 ^ 8) dp ->
  endsNumber jp ->
  strings.Contains e0 "$" = false -> strings.Contains jv "$" = false ->
  strings.Contains jp "$" = false ->
  strings.Contains es "$" = false -> strings.Contains ek "$" = false ->
  argon2id.decodeHash
    (e0 ++ "$argon2id$v=" ++ dv ++ jv ++ "$m=" ++ dm ++ ",t=" ++ dt ++ ",p=" ++ dp
        ++ jp ++ "$" ++ es ++ "$" ++ ek)
  = argon2id.decodeHash
      (fmt.Sprintf "$argon2id$v=%d$m=%d,t=%d,p=%d$%s$%s"
         [fmt.Int argon2.Version; fmt.Uint32 (decimalValue dm);
          fmt.Uint32 (decimalValue dt); fmt.Uint8 (decimalValue dp);
          fmt.Str es; fmt.Str ek]).
Proof.
  intros Hdv Hv Hjv Hdm Hdt Hdp Hjp C0 Cjv Cjp Ces Cek.
  rewrite decodeHash_lenient_value by assumption.
  rewrite Sprintf_record.
  pose proof (numeralBelow_nonneg _ _ Hdm) as Pm.
  pose proof (numeralBelow_nonneg _ _ Hdt) as Pt.
  pose proof (numeralBelow_nonneg _ _ Hdp) as Pp.
  destruct Hdm as (_ & _ & Vm & _). destruct Hdt as (_ & _ & Vt & _).
  destruct Hdp as (_ & _ & Vp & _).
  pose proof (decodeHash_lenient_value EmptyString
                (fmt.fmtInteger argon2.Version) EmptyString
                (fmt.fmtInteger (decimalValue dm)) (fmt.fmtInteger (decimalValue dt))
                (fmt.fmtInteger (decimalValue dp)) EmptyString es ek) as Hcanon.
  cbn [append] in Hcanon. rewrite ?append_empty_r in Hcanon.
  cbn [append]. rewrite Hcanon; try assumption; try reflexivity; try exact I.
  - destruct (fmtInteger_decimal (decimalValue dm) ltac:(lia)) as (-> & _).
    destruct (fmtInteger_decimal (decimalValue dt) ltac:(lia)) as (-> & _).
    destruct (fmtInteger_decimal (decimalValue dp) ltac:(lia)) as (-> & _).
    reflexivity.
  - apply fmtInteger_numeralBelow; [change argon2.Version with 19|]; lia.
  - apply fmtInteger_numeralBelow; lia.
  - apply fmtInteger_numeralBelow; lia.
  - apply fmtInteger_numeralBelow; lia.
Qed.

(** ** Numbers beyond the width of their field *)

(** [scanUint] on the digits of a value of 64 bits that does not fit
    [bitSize] bits. *)
Lemma scanUint_overflow (bitSize : Z) (ds : string) (rest : list Z) (n : Z) :
  0 < bitSize < 64 ->
  ds <> EmptyString -> allOf isDigit ds = true -> stops rest ->
  2 ^ bitSize <= decimalValue ds < 2 ^ 64 ->
  n + Z.of_nat (String.length ds) <= fmt.hugeWid ->
  fmt.scanUint "d" bitSize (fmt.mkss (asciiRunes ds ++ rest)%list n)
  = Err (ScanError ("unsigned integer overflow on token " ++ ds)).
Proof.
  intros Hb Hne Hd Hstop Hv Hn.
  unfold fmt.scanUint, fmt.SkipSpace. cbn [fmt.rs fmt.count].
  assert (Hskip : fmt.skipRunes (asciiRunes ds ++ rest)%list n
                  = Ok (fmt.mkss (asciiRunes ds ++ rest)%list n)).
  { destruct ds as [|c ds]; [contradiction|].
    cbn [allOf] in Hd. apply andb_true_iff in Hd as [Hc _].
    cbn [asciiRunes app]. now apply skipRunes_digit. }
  rewrite Hskip. cbn [bind].
  assert (Hnot : fmt.notEOF (fmt.mkss (asciiRunes ds ++ rest)%list n) = Ok tt).
  { destruct ds as [|c ds]; [contradiction|].
    cbn [String.length] in Hn. rewrite Nat2Z.inj_succ in Hn.
    unfold fmt.notEOF, fmt.ReadRune. cbn [asciiRunes app fmt.rs fmt.count].
    destruct (Z.leb_spec fmt.hugeWid n) as [H|H]; [lia | reflexivity]. }
  rewrite Hnot. cbn [bind]. unfold fmt.getBase. cbn [Ascii.eqb Bool.eqb andb bind].
  rewrite scanNumber_digits by assumption. cbn [bind].
  rewrite ParseUint_digits by (auto; lia). cbn [bind].
  assert (Hx : Z.shiftr (uint64 (Z.shiftl (decimalValue ds) (64 - bitSize)))
                 (64 - bitSize) < 2 ^ bitSize).
  { rewrite Z.shiftr_div_pow2 by lia. unfold uint64.
    assert (Hsplit : 2 ^ 64 = 2 ^ (64 - bitSize) * 2 ^ bitSize).
    { rewrite <- Z.pow_add_r by lia. f_equal. lia. }
    assert (Hp : 0 < 2 ^ (64 - bitSize)) by (apply Z.pow_pos_nonneg; lia).
    apply Z.div_lt_upper_bound; [exact Hp|].
    rewrite <- Hsplit. apply Z.mod_pos_bound. lia. }
  destruct (Z.eqb_spec
              (Z.shiftr (uint64 (Z.shiftl (decimalValue ds) (64 - bitSize)))
                 (64 - bitSize)) (decimalValue ds)) as [E|NE]; [lia|].
  reflexivity.
Qed.

(** X7. A parallelism above 255 is refused, not wrapped: the record is
    rejected with the scanner's overflow error, which names the number. *)
Theorem decodeHash_parallelism_overflow (e0 dm dt dp es ek : string) :
  numeralBelow (2 ^ 32) dm -> numeralBelow (2 ^ 32) dt ->
  numeralBelow (2 ^ 64) dp -> 2 ^ 8 <= decimalValue dp ->
  strings.Contains e0 "$" = false ->
  strings.Contains es "$" = false -> strings.Contains ek "$" = false ->
  argon2id.decodeHash
    (e0 ++ "$argon2id$v=19$m=" ++ dm ++ ",t=" ++ dt ++ ",p=" ++ dp
        ++ "$" ++ es ++ "$" ++ ek)
  = Err (ScanError ("unsigned integer overflow on token " ++ dp)).
Proof.
  intros (Nm & Dm & Vm & Lm) (Nt & Dt & Vt & Lt) (Np & Dp & Vp & Lp) Hp C0 Ces Cek.
  replace (e0 ++ "$argon2id$v=19$m=" ++ dm ++ ",t=" ++ dt ++ ",p=" ++ dp
              ++ "$" ++ es ++ "$" ++ ek)
    with (e0 ++ String "$" ("argon2id" ++ String "$" (("v=" ++ "19" ++ "")
            ++ String "$" (("m=" ++ dm ++ ",t=" ++ dt ++ ",p=" ++ dp ++ "")
            ++ String "$" (es ++ String "$" ek)))))
    by (symmetry; exact (lenient_segments e0 "19" "" dm dt dp "" es ek)).
  erewrite decodeHash_six.
  2:{ apply Split_six; try assumption; try reflexivity.
      rewrite !Contains_app, (digits_no_dollar _ Dm), (digits_no_dollar _ Dt),
        (digits_no_dollar _ Dp). reflexivity. }
  change (fmt.Sscanf ("v=" ++ "19" ++ "") "v=%d" [fmt.IntPtr]) with (Ok [19]).
  cbn [bind nth]. change (String.eqb "argon2id" "argon2id") with true.
  change (19 =? argon2.Version) with true. cbn [negb orb].
  rewrite append_empty_r.
  assert (Hscan :
    fmt.Sscanf ("m=" ++ dm ++ ",t=" ++ dt ++ ",p=" ++ dp) "m=%d,t=%d,p=%d"
      [fmt.Uint32Ptr; fmt.Uint32Ptr; fmt.Uint8Ptr]
    = Err (ScanError ("unsigned integer overflow on token " ++ dp))).
  { unfold fmt.Sscanf. rewrite runes_ASCII.
    2:{ rewrite !allOf_app.
        rewrite (allOf_impl _ _ dm isDigit_isASCII Dm),
                (allOf_impl _ _ dt isDigit_isASCII Dt),
                (allOf_impl _ _ dp isDigit_isASCII Dp).
        reflexivity. }
    rewrite !asciiRunes_app.
    change (asciiRunes "m=") with [asciiZ "m"; asciiZ "="].
    change (asciiRunes ",t=") with [asciiZ ","; asciiZ "t"; asciiZ "="].
    change (asciiRunes ",p=") with [asciiZ ","; asciiZ "p"; asciiZ "="].
    cbn [app]. change (2 ^ 28) with 268435456 in *.
    assert (Hcomma : forall l, stops (asciiZ "," :: l)) by (intros; reflexivity).
    rewrite 2 doScanf_literal
      by (reflexivity || (change fmt.hugeWid with 1073741824; lia)).
    rewrite (doScanf_unsigned fmt.Uint32Ptr)
      by (try discriminate; auto; cbn [bitsOf];
          try (change fmt.hugeWid with 1073741824); lia).
    rewrite 3 doScanf_literal
      by (reflexivity || (change fmt.hugeWid with 1073741824; lia)).
    rewrite (doScanf_unsigned fmt.Uint32Ptr)
      by (try discriminate; auto; cbn [bitsOf];
          try (change fmt.hugeWid with 1073741824); lia).
    rewrite 3 doScanf_literal
      by (reflexivity || (change fmt.hugeWid with 1073741824; lia)).
    rewrite <- (app_nil_r (asciiRunes dp)).
    cbn [fmt.doScanf Ascii.eqb Bool.eqb andb].
    unfold fmt.SkipSpace. cbn [fmt.rs fmt.count].
    assert (Hskip : forall k,
               fmt.skipRunes (asciiRunes dp ++ [])%list k
               = Ok (fmt.mkss (asciiRunes dp ++ [])%list k)).
    { intros k. destruct dp as [|c dp']; [contradiction|].
      cbn [allOf] in Dp. apply andb_true_iff in Dp as [Hc _].
      cbn [asciiRunes app]. now apply skipRunes_digit. }
    rewrite Hskip. cbn [bind fmt.scanOne].
    rewrite (scanUint_overflow 8)
      by (auto; try exact I; try (change fmt.hugeWid with 1073741824); lia).
    reflexivity. }
  rewrite Hscan. reflexivity.
Qed.

(** ** The salt and the key segment *)

Lemma Split_nonempty (s : string) (sep : ascii) : strings.Split s sep <> [].
Proof.
  intros H. apply (f_equal (@List.length string)) in H.
  rewrite Split_length in H. discriminate.
Qed.

Lemma Split_app_last (front k : string) (sep : ascii) :
  strings.Contains k sep = false ->
  strings.Split (front ++ String sep k) sep
  = (strings.Split front sep ++ [k])%list.
Proof.
  intros Hk. induction front as [|c f IH]; cbn [append strings.Split].
  - rewrite Ascii.eqb_refl, Split_no_sep by exact Hk. reflexivity.
  - destruct (Ascii.eqb c sep); rewrite IH; [reflexivity|].
    pose proof (Split_nonempty f sep) as Hne.
    destruct (strings.Split f sep) as [|seg segs]; [contradiction | reflexivity].
Qed.

(** A record read as front, salt segment and key segment. *)
Lemma decodeHash_salt_key (front s k : string) :
  strings.Contains s "$" = false -> strings.Contains k "$" = false ->
  argon2id.decodeHash (front ++ String "$" (s ++ String "$" k))
  = (' (m, t, p) <- decodeClauses front ;;
     salt <- base64.DecodeString s ;;
     key <- base64.DecodeString k ;;
     Ok ({| argon2id.Memory := m; argon2id.Iterations := t;
            argon2id.Parallelism := p;
            argon2id.SaltLength := uint32 (Z.of_nat (List.length salt));
            argon2id.KeyLength := uint32 (Z.of_nat (List.length key)) |},
         salt, key)).
Proof.
  intros Hs Hk.
  assert (Hsplit : strings.Split (front ++ String "$" (s ++ String "$" k)) "$"
                   = (strings.Split front "$" ++ [s; k])%list).
  { replace (front ++ String "$" (s ++ String "$" k))
      with ((front ++ String "$" s) ++ String "$" k)
      by (rewrite append_assoc; reflexivity).
    rewrite !Split_app_last by assumption.
    rewrite <- app_assoc. reflexivity. }
  unfold argon2id.decodeHash, decodeClauses. rewrite Hsplit.
  rewrite length_app. cbn [List.length].
  destruct (strings.Split front "$") as [|e0 [|e1 [|e2 [|e3 [|e4 rest]]]]];
    try reflexivity.
  - cbn [app List.length Nat.add Nat.eqb negb nth].
    destruct (fmt.Sscanf e2 "v=%d" [fmt.IntPtr]) as [vs|e]; [|reflexivity].
    cbn [bind].
    destruct (negb (String.eqb e1 "argon2id") || negb (nth 0 vs 0 =? argon2.Version));
      [reflexivity|].
    destruct (fmt.Sscanf e3 "m=%d,t=%d,p=%d" _) as [ps|e]; reflexivity.
  - cbn [app List.length Nat.add Nat.eqb negb].
    destruct (Nat.eqb_spec (List.length rest + 2) 1) as [E|NE]; [lia|].
    reflexivity.
Qed.

(** ** Line breaks and foreign bytes in base64 text *)

Lemma decode_offset (s : string) :
  forall (si si' : Z) (dbuf : list Z) (out r : list byte),
    base64.decode s si dbuf out = Ok r -> base64.decode s si' dbuf out = Ok r.
Proof.
  induction s as [|c s IH]; intros si si' dbuf out r; cbn [base64.decode].
  - destruct dbuf as [|? [|? ?]]; auto. discriminate.
  - destruct (negb (base64.decodeMap c =? 255)).
    + destruct (Nat.eqb _ 4); apply IH.
    + destruct (_ || _); [apply IH | discriminate].
Qed.

Lemma lineBreak_decodeMap (c : ascii) :
  isLineBreak c = true -> negb (base64.decodeMap c =? 255) = false.
Proof.
  unfold isLineBreak. intros H. apply orb_true_iff in H as [H|H];
    apply Ascii.eqb_eq in H; subst; reflexivity.
Qed.

Lemma decode_skips_line_breaks (nl b : string) :
  allOf isLineBreak nl = true ->
  forall (si si' : Z) (dbuf : list Z) (out r : list byte),
    base64.decode b si dbuf out = Ok r ->
    base64.decode (nl ++ b) si' dbuf out = Ok r.
Proof.
  intros Hnl. induction nl as [|c nl IH]; intros si si' dbuf out r Hb.
  - exact (decode_offset _ _ _ _ _ _ Hb).
  - cbn [allOf] in Hnl. apply andb_true_iff in Hnl as [Hc Hnl].
    cbn [append base64.decode]. rewrite (lineBreak_decodeMap c Hc).
    fold (isLineBreak c). rewrite Hc. eapply IH; eauto.
Qed.

(** Line breaks put anywhere into base64 text do not change what it
    decodes to. *)
Lemma decode_line_breaks (a nl b : string) :
  allOf isLineBreak nl = true ->
  forall (si si' : Z) (dbuf : list Z) (out r : list byte),
    base64.decode (a ++ b) si dbuf out = Ok r ->
    base64.decode (a ++ nl ++ b) si' dbuf out = Ok r.
Proof.
  intros Hnl. induction a as [|c a IH]; intros si si' dbuf out r.
  - cbn [append]. apply decode_skips_line_breaks. exact Hnl.
  - cbn [append base64.decode].
    destruct (negb (base64.decodeMap c =? 255)).
    + destruct (Nat.eqb _ 4); apply IH.
    + destruct (_ || _); [apply IH | discriminate].
Qed.

Lemma DecodeString_line_breaks (a nl b : string) (r : list byte) :
  allOf isLineBreak nl = true ->
  base64.DecodeString (a ++ b) = Ok r ->
  base64.DecodeString (a ++ nl ++ b) = Ok r.
Proof. intros Hnl. apply decode_line_breaks. exact Hnl. Qed.

Lemma foreign_decodeMap (c : ascii) :
  foreign c = true ->
  negb (base64.decodeMap c =? 255) = false /\
  Ascii.eqb c "010" || Ascii.eqb c "013" = false.
Proof.
  unfold foreign. intros H. apply andb_true_iff in H as [Ha Hn].
  apply negb_true_iff in Ha, Hn. split; [|exact Hn].
  clear Hn. revert Ha.
  destruct c as [[] [] [] [] [] [] [] []]; vm_compute; intros H;
    (reflexivity || discriminate).
Qed.

(** Text that decodes, followed by a foreign byte: corrupt input at the
    index of that byte. *)
Lemma decode_foreign (k more : string) (c : ascii) :
  foreign c = true ->
  forall (si : Z) (dbuf : list Z) (out r : list byte),
    base64.decode k si dbuf out = Ok r ->
    base64.decode (k ++ String c more) si dbuf out
    = Err (CorruptInputError (si + Z.of_nat (String.length k))).
Proof.
  intros Hc. destruct (foreign_decodeMap c Hc) as [Hmap Hnl].
  induction k as [|d k IH]; intros si dbuf out r.
  - intros _. cbn [append base64.decode String.length].
    rewrite Hmap, Hnl, Z.add_0_r. reflexivity.
  - cbn [append base64.decode String.length]. rewrite Nat2Z.inj_succ.
    replace (si + Z.succ (Z.of_nat (String.length k)))
      with (si + 1 + Z.of_nat (String.length k)) by lia.
    destruct (negb (base64.decodeMap d =? 255)).
    + destruct (Nat.eqb _ 4); apply IH.
    + destruct (Ascii.eqb d "010" || Ascii.eqb d "013");
        [apply IH | discriminate].
Qed.

Lemma DecodeString_foreign (k more : string) (c : ascii) (r : list byte) :
  foreign c = true ->
  base64.DecodeString k = Ok r ->
  base64.DecodeString (k ++ String c more)
  = Err (CorruptInputError (Z.of_nat (String.length k))).
Proof.
  intros Hc Hk. unfold base64.DecodeString.
  rewrite (decode_foreign k more c Hc 0 [] [] r Hk). reflexivity.
Qed.

(** X8. Line breaks inside the salt segment or the key segment are
    skipped: a record that decodes still decodes, to the same parameters,
    salt and key, after carriage returns and line feeds are put into
    these segments. *)
Theorem decodeHash_line_breaks
    (front a nl b c nl' d : string) (r : argon2id.Params * list byte * list byte) :
  allOf isLineBreak nl = true -> allOf isLineBreak nl' = true ->
  strings.Contains (a ++ b) "$" = false -> strings.Contains (c ++ d) "$" = false ->
  argon2id.decodeHash (front ++ String "$" ((a ++ b) ++ String "$" (c ++ d))) = Ok r ->
  argon2id.decodeHash
    (front ++ String "$" ((a ++ nl ++ b) ++ String "$" (c ++ nl' ++ d))) = Ok r.
Proof.
  intros Hnl Hnl' Hab Hcd Hd.
  assert (Hdollar : forall x, allOf isLineBreak x = true ->
                              strings.Contains x "$" = false).
  { intros x Hx. apply (allOf_Contains isLineBreak); [exact Hx | reflexivity]. }
  rewrite Contains_app in Hab, Hcd.
  apply orb_false_iff in Hab as [Ha Hb]. apply orb_false_iff in Hcd as [Hc Hd'].
  rewrite decodeHash_salt_key in Hd
    by (rewrite Contains_app; apply orb_false_iff; auto).
  rewrite decodeHash_salt_key
    by (rewrite !Contains_app, ?Ha, ?Hb, ?Hc, ?Hd', ?(Hdollar _ Hnl),
          ?(Hdollar _ Hnl'); reflexivity).
  destruct (decodeClauses front) as [[[m t] p]|e]; [|discriminate].
  cbn [bind] in *.
  destruct (base64.DecodeString (a ++ b)) as [salt|e] eqn:Hs; [|discriminate].
  rewrite (DecodeString_line_breaks a nl b salt Hnl Hs).
  cbn [bind] in *.
  destruct (base64.DecodeString (c ++ d)) as [key|e] eqn:Hk; [|discriminate].
  rewrite (DecodeString_line_breaks c nl' d key Hnl' Hk).
  exact Hd.
Qed.

(** X9. Padding is refused: when a record decodes, the same record with
    an equals sign, or any other byte outside the alphabet, after its
    salt segment or after its key segment is rejected as corrupt input at
    the index of that byte within the segment. *)
Theorem decodeHash_foreign_byte
    (front s k more : string) (c : ascii)
    (r : argon2id.Params * list byte * list byte) :
  foreign c = true -> Ascii.eqb c "$" = false ->
  strings.Contains s "$" = false -> strings.Contains k "$" = false ->
  strings.Contains more "$" = false ->
  argon2id.decodeHash (front ++ String "$" (s ++ String "$" k)) = Ok r ->
  argon2id.decodeHash (front ++ String "$" ((s ++ String c more) ++ String "$" k))
  = Err (CorruptInputError (Z.of_nat (String.length s))) /\
  argon2id.decodeHash (front ++ String "$" (s ++ String "$" (k ++ String c more)))
  = Err (CorruptInputError (Z.of_nat (String.length k))).
Proof.
  intros Hc Hc' Hs Hk Hmore Hd.
  assert (Hsc : forall x, strings.Contains x "$" = false ->
                          strings.Contains (x ++ String c more) "$" = false).
  { intros x Hx. rewrite Contains_app, Hx. cbn [strings.Contains orb].
    rewrite Hc', Hmore. reflexivity. }
  rewrite decodeHash_salt_key in Hd by assumption.
  rewrite !decodeHash_salt_key by auto.
  destruct (decodeClauses front) as [[[m t] p]|e]; [|discriminate].
  cbn [bind] in *.
  destruct (base64.DecodeString s) as [salt|e] eqn:Es; [|discriminate].
  cbn [bind] in *.
  destruct (base64.DecodeString k) as [key|e] eqn:Ek; [|discriminate].
  rewrite (DecodeString_foreign s more c salt Hc Es).
  rewrite (DecodeString_foreign k more c key Hc Ek).
  split; reflexivity.
Qed.

(** ** The text of a generated record *)

Lemma Count_app (a b : string) (c : ascii) :
  strings.Count (a ++ b) c = (strings.Count a c + strings.Count b c)%nat.
Proof.
  induction a as [|d a IH]; cbn [append strings.Count]; [reflexivity|].
  rewrite IH. lia.
Qed.

Lemma Count_none (s : string) (c : ascii) :
  strings.Contains s c = false -> strings.Count s c = 0%nat.
Proof.
  induction s as [|d s IH]; cbn [strings.Contains strings.Count]; [reflexivity|].
  intros H. apply orb_false_iff in H as [Hd Hs]. rewrite Hd, (IH Hs). reflexivity.
Qed.

Lemma isDigit_recordChar (c : ascii) : isDigit c = true -> recordChar c = true.
Proof.
  unfold isDigit, recordChar, stdAlphabet. intros ->.
  rewrite !orb_true_r. reflexivity.
Qed.

Lemma stdAlphabet_recordChar (c : ascii) : stdAlphabet c = true -> recordChar c = true.
Proof. unfold recordChar. intros ->. reflexivity. Qed.

Lemma recordChar_isASCII (c : ascii) : recordChar c = true -> isASCII c = true.
Proof.
  destruct c as [[] [] [] [] [] [] [] []]; vm_compute; intros H;
    (reflexivity || discriminate).
Qed.

(** More fuel than the digits need changes nothing. *)
Lemma fmtDigits_fuel (f k : nat) :
  forall (u : Z) (acc : string),
    0 <= u < 10 ^ Z.of_nat (S f) ->
    fmt.fmtDigits (S f + k) u acc = fmt.fmtDigits (S f) u acc.
Proof.
  induction f as [|f IH]; intros u acc Hu.
  - change (10 ^ Z.of_nat 1) with 10 in Hu. cbn [Nat.add fmt.fmtDigits].
    destruct (Z.leb_spec 10 u); [lia | reflexivity].
  - assert (Hpow : 10 ^ Z.of_nat (S (S f)) = 10 * 10 ^ Z.of_nat (S f)).
    { rewrite (Nat2Z.inj_succ (S f)), Z.pow_succ_r by lia. reflexivity. }
    change (S (S f) + k)%nat with (S (S f + k)).
    remember (S f) as g eqn:Hg. cbn [fmt.fmtDigits].
    destruct (Z.leb_spec 10 u) as [H|H]; [|reflexivity].
    subst g. apply IH. split; [apply Z.div_pos; lia|].
    apply Z.div_lt_upper_bound; lia.
Qed.

(** A value of 32 bits is written with at most ten digits, a value of
    eight bits with at most three. *)
Lemma fmtInteger_digits (v : Z) :
  (0 <= v < 2 ^ 32 -> (String.length (fmt.fmtInteger v) <= 10)%nat) /\
  (0 <= v < 2 ^ 8 -> (String.length (fmt.fmtInteger v) <= 3)%nat).
Proof.
  unfold fmt.fmtInteger, fmt.fmtUnsigned.
  split; intros Hv; (destruct (Z.ltb_spec v 0) as [H|H]; [lia|]).
  - change 20%nat with (10 + 10)%nat. rewrite (fmtDigits_fuel 9 10) by (simpl; lia).
    apply (fmtDigits_decimal 9 v). simpl; lia.
  - change 20%nat with (3 + 17)%nat. rewrite (fmtDigits_fuel 2 17) by (simpl; lia).
    apply (fmtDigits_decimal 2 v). simpl; lia.
Qed.

Section Text.

Variable IDKey : list byte -> list byte -> Z -> Z -> Z -> Z -> list byte.

(** X10. A generated record is plain text: every character is an ASCII
    letter, a digit, or one of [$ = , + /], and exactly five of them are
    dollar signs, so the record splits into six segments. *)
Theorem GenerateFromPassword_text
    (rand rand' : io.Reader) (pass : list byte) (p : option argon2id.Params)
    (record : string) :
  argon2id.wellTyped (effective p) ->
  argon2id.GenerateFromPassword IDKey rand pass p = ((record, None), rand') ->
  allOf recordChar record = true /\ allOf isASCII record = true /\
  strings.Count record "$" = 5%nat /\
  List.length (strings.Split record "$") = 6%nat.
Proof.
  intros (Hm & Ht & Hp & _ & _) Hgen.
  destruct (GenerateFromPassword_Ok _ _ _ _ _ _ Hgen) as (salt & _ & ->).
  rewrite Sprintf_record.
  destruct (fmtInteger_decimal (argon2id.Memory (effective p)) ltac:(lia))
    as (_ & Dm & _).
  destruct (fmtInteger_decimal (argon2id.Iterations (effective p)) ltac:(lia))
    as (_ & Dt & _).
  destruct (fmtInteger_decimal (argon2id.Parallelism (effective p)) ltac:(lia))
    as (_ & Dp & _).
  change (fmt.fmtInteger argon2.Version) with "19".
  set (dm := fmt.fmtInteger (argon2id.Memory (effective p))) in *.
  set (dt := fmt.fmtInteger (argon2id.Iterations (effective p))) in *.
  set (dp := fmt.fmtInteger (argon2id.Parallelism (effective p))) in *.
  set (es := base64.EncodeToString salt).
  set (ek := base64.EncodeToString (IDKey _ _ _ _ _ _)).
  assert (Hes : allOf stdAlphabet es = true) by apply EncodeToString_stdAlphabet.
  assert (Hek : allOf stdAlphabet ek = true) by apply EncodeToString_stdAlphabet.
  assert (Hchars : allOf recordChar
            ("$argon2id$v=" ++ "19" ++ "$m=" ++ dm ++ ",t=" ++ dt ++ ",p=" ++ dp
               ++ "$" ++ es ++ "$" ++ ek) = true).
  { rewrite !allOf_app.
    rewrite (allOf_impl _ _ dm isDigit_recordChar Dm),
            (allOf_impl _ _ dt isDigit_recordChar Dt),
            (allOf_impl _ _ dp isDigit_recordChar Dp),
            (allOf_impl _ _ es stdAlphabet_recordChar Hes),
            (allOf_impl _ _ ek stdAlphabet_recordChar Hek).
    reflexivity. }
  assert (Hcount : strings.Count
            ("$argon2id$v=" ++ "19" ++ "$m=" ++ dm ++ ",t=" ++ dt ++ ",p=" ++ dp
               ++ "$" ++ es ++ "$" ++ ek) "$" = 5%nat).
  { rewrite !Count_app.
    rewrite (Count_none dm) by (apply digits_no_dollar; exact Dm).
    rewrite (Count_none dt) by (apply digits_no_dollar; exact Dt).
    rewrite (Count_none dp) by (apply digits_no_dollar; exact Dp).
    rewrite (Count_none es) by apply EncodeToString_no_dollar.
    rewrite (Count_none ek) by apply EncodeToString_no_dollar.
    reflexivity. }
  split; [exact Hchars|]. split; [|split; [exact Hcount|]].
  - exact (allOf_impl _ _ _ recordChar_isASCII Hchars).
  - rewrite Split_length, Hcount. reflexivity.
Qed.

(** X11. The length of a generated record is bounded by the lengths of
    salt and key: at most 48 characters for the marks and the numbers,
    and [(8n + 5) / 6] characters for each of the two byte sequences. *)
Theorem GenerateFromPassword_length
    (rand rand' : io.Reader) (pass : list byte) (p : option argon2id.Params)
    (record : string) :
  keysHaveLength IDKey ->
  argon2id.wellTyped (effective p) ->
  argon2id.GenerateFromPassword IDKey rand pass p = ((record, None), rand') ->
  Z.of_nat (String.length record)
  <= 48 + (8 * argon2id.SaltLength (effective p) + 5) / 6
        + (8 * argon2id.KeyLength (effective p) + 5) / 6.
Proof.
  intros Hlen (Hm & Ht & Hp & Hs & Hk) Hgen.
  destruct (GenerateFromPassword_Ok _ _ _ _ _ _ Hgen) as (salt & Hread & ->).
  apply ReadFull_length in Hread.
  rewrite Sprintf_record, !length_append.
  pose proof (EncodeToString_length salt) as Ls.
  pose proof (EncodeToString_length
                (IDKey pass salt (argon2id.Iterations (effective p))
                   (argon2id.Memory (effective p))
                   (argon2id.Parallelism (effective p))
                   (argon2id.KeyLength (effective p)))) as Lk.
  rewrite Hlen in Lk by assumption.
  rewrite Hread, Z2Nat.id in Ls by lia.
  pose proof (proj1 (fmtInteger_digits (argon2id.Memory (effective p))) Hm) as Dm.
  pose proof (proj1 (fmtInteger_digits (argon2id.Iterations (effective p))) Ht) as Dt.
  pose proof (proj2 (fmtInteger_digits (argon2id.Parallelism (effective p))) Hp) as Dp.
  change (fmt.fmtInteger argon2.Version) with "19".
  cbn [String.length].
  rewrite !Nat2Z.inj_add, Ls, Lk. lia.
Qed.

End Text.

(** ** The further properties on concrete inputs *)

(** The parameters of the package's generation test, parallelism zero
    included, come back from the record. *)
Lemma decodeHash_GenerateFromPassword_test :
  argon2id.decodeHash
    "$argon2id$v=19$m=4096,t=1000,p=0$AQIDBAUGBwgJCgsMDQ4PEBESExQVFhcYGRobHB0eHyA$Zm9vMTIzAQIDBAUGBwgJCgsMDQ4PEBESExQVFhcYGRobHB0eHyAqKioqKioqKioqKioqKioqKioqKioqKioqKg"
  = Ok (tests.generateParams, firstn 32 tests.entropy,
        tests.toyKey tests.password (firstn 32 tests.entropy) 1000 4096 0 64).
Proof.
  exact (proj1 (decodeHash_GenerateFromPassword tests.toyKey tests.entropy
                  (skipn 32 tests.entropy) tests.password
                  (Some tests.generateParams) _
                  toyKey_length ltac:(concrete) ltac:(vm_compute; reflexivity))).
Defined.

(** The record of the generation test verifies against [foo123] and not
    against [wrong]. *)
Lemma CompareHashAndPassword_generated_test :
  argon2id.CompareHashAndPassword tests.toyKey
    "$argon2id$v=19$m=4096,t=1000,p=0$AQIDBAUGBwgJCgsMDQ4PEBESExQVFhcYGRobHB0eHyA$Zm9vMTIzAQIDBAUGBwgJCgsMDQ4PEBESExQVFhcYGRobHB0eHyAqKioqKioqKioqKioqKioqKioqKioqKioqKg"
    [x77; x72; x6f; x6e; x67]
  = Some ErrPasswordNotMatch.
Proof.
  apply (proj2 (CompareHashAndPassword_generated tests.toyKey tests.entropy
                  (skipn 32 tests.entropy) tests.password
                  [x77; x72; x6f; x6e; x67]
                  (Some tests.generateParams) _
                  toyKey_length ltac:(concrete) ltac:(vm_compute; reflexivity))).
  vm_compute. discriminate.
Defined.

(** A random source of one byte fails the generation. *)
Lemma GenerateFromPassword_failure_short_source :
  argon2id.GenerateFromPassword tests.toyKey [x01] tests.password None
  = ((EmptyString, Some ErrUnexpectedEOF), []) /\
  argon2id.CompareHashAndPassword tests.toyKey EmptyString tests.password
  = Some ErrInvalidHash.
Proof.
  split; [reflexivity|].
  exact (proj2 (proj2 (proj2
           (GenerateFromPassword_failure tests.toyKey [x01] [] tests.password
              tests.password None EmptyString ErrUnexpectedEOF eq_refl)))).
Defined.

(** Two random sources that agree on their first 32 bytes give the same
    record, hence the same salt. *)
Lemma GenerateFromPassword_injective_same_salt :
  firstn 32 tests.entropy = firstn 32 (firstn 32 tests.entropy ++ [x00])%list.
Proof.
  exact (proj1 (proj2 (proj2 (proj2 (proj2
           (GenerateFromPassword_injective tests.toyKey
              tests.entropy (skipn 32 tests.entropy)
              (firstn 32 tests.entropy ++ [x00])%list [x00]
              tests.password tests.password None None _
              ltac:(concrete) ltac:(concrete)
              ltac:(vm_compute; reflexivity) ltac:(vm_compute; reflexivity))))))).
Defined.

(** The last character of the key of the generated record changed from
    [g] to [w]: the record no longer verifies. *)
Lemma CompareHashAndPassword_tampered_key_test :
  argon2id.CompareHashAndPassword tests.toyKey
    "$argon2id$v=19$m=4096,t=10,p=2$AQIDBAUGBwgJCgsMDQ4PEBESExQVFhcYGRobHB0eHyA$Zm9vMTIzAQIDBAUGBwgJCgsMDQ4PEBESExQVFhcYGRobHB0eHyAqKioqKioqKioqKioqKioqKioqKioqKioqKw"
    tests.password
  = Some ErrPasswordNotMatch.
Proof.
  eapply (CompareHashAndPassword_tampered_key tests.toyKey
            "$argon2id$v=19$m=4096,t=10,p=2$AQIDBAUGBwgJCgsMDQ4PEBESExQVFhcYGRobHB0eHyA$Zm9vMTIzAQIDBAUGBwgJCgsMDQ4PEBESExQVFhcYGRobHB0eHyAqKioqKioqKioqKioqKioqKioqKioqKioqKg").
  - vm_compute. reflexivity.
  - vm_compute. reflexivity.
  - discriminate.
  - vm_compute. reflexivity.
Defined.

(** The valid test record with a leading segment, zeros in front of its
    numbers and text after version and parallelism. *)
Lemma decodeHash_lenient_test :
  argon2id.decodeHash
    "junk$argon2id$v=019.5$m=0004096,t=03,p=001 threads$82XldKYgqAqher7EuFzPNw$O1Epnr+m1JYkgtWcgVLID39ro6He105HTFnE+SinJyM"
  = argon2id.decodeHash tests.validRecord.
Proof.
  exact (decodeHash_lenient "junk" "019" ".5" "0004096" "03" "001" " threads"
           "82XldKYgqAqher7EuFzPNw" "O1Epnr+m1JYkgtWcgVLID39ro6He105HTFnE+SinJyM"
           ltac:(concrete) eq_refl eq_refl ltac:(concrete) ltac:(concrete)
           ltac:(concrete) eq_refl eq_refl eq_refl eq_refl eq_refl eq_refl).
Defined.

(** The valid test record with parallelism 256. *)
Lemma decodeHash_parallelism_256 :
  argon2id.decodeHash
    "$argon2id$v=19$m=4096,t=3,p=256$82XldKYgqAqher7EuFzPNw$O1Epnr+m1JYkgtWcgVLID39ro6He105HTFnE+SinJyM"
  = Err (ScanError "unsigned integer overflow on token 256").
Proof.
  exact (decodeHash_parallelism_overflow "" "4096" "3" "256"
           "82XldKYgqAqher7EuFzPNw" "O1Epnr+m1JYkgtWcgVLID39ro6He105HTFnE+SinJyM"
           ltac:(concrete) ltac:(concrete) ltac:(concrete)
           ltac:(vm_compute; congruence) eq_refl eq_refl eq_refl).
Defined.

(** The valid test record with its salt and key broken over lines. *)
Lemma decodeHash_line_breaks_test :
  exists r,
    argon2id.decodeHash tests.validRecord = Ok r /\
    argon2id.decodeHash
      ("$argon2id$v=19$m=4096,t=3,p=1$82XldKYg"
         ++ String "013" (String "010" "qAqher7EuFzPNw$O1Epnr+m1JYkgtWcgVLID39r")
         ++ String "010" "o6He105HTFnE+SinJyM")
    = Ok r.
Proof.
  destruct (argon2id.decodeHash tests.validRecord) as [r|e] eqn:Hd;
    [|vm_compute in Hd; discriminate].
  exists r. split; [reflexivity|].
  exact (decodeHash_line_breaks "$argon2id$v=19$m=4096,t=3,p=1"
           "82XldKYg" (String "013" (String "010" "")) "qAqher7EuFzPNw"
           "O1Epnr+m1JYkgtWcgVLID39r" (String "010" "") "o6He105HTFnE+SinJyM" r
           eq_refl eq_refl eq_refl eq_refl Hd).
Defined.

(** The valid test record with padded salt, and with padded key. *)
Lemma decodeHash_padding_test :
  argon2id.decodeHash
    "$argon2id$v=19$m=4096,t=3,p=1$82XldKYgqAqher7EuFzPNw==$O1Epnr+m1JYkgtWcgVLID39ro6He105HTFnE+SinJyM"
  = Err (CorruptInputError 22) /\
  argon2id.decodeHash
    "$argon2id$v=19$m=4096,t=3,p=1$82XldKYgqAqher7EuFzPNw$O1Epnr+m1JYkgtWcgVLID39ro6He105HTFnE+SinJyM=="
  = Err (CorruptInputError 43).
Proof.
  destruct (argon2id.decodeHash tests.validRecord) as [r|e] eqn:Hd;
    [|vm_compute in Hd; discriminate].
  exact (decodeHash_foreign_byte "$argon2id$v=19$m=4096,t=3,p=1"
           "82XldKYgqAqher7EuFzPNw" "O1Epnr+m1JYkgtWcgVLID39ro6He105HTFnE+SinJyM"
           "=" "=" r eq_refl eq_refl eq_refl eq_refl eq_refl Hd).
Defined.

(** The record generated with the default parameters: its characters,
    its five dollar signs and its 161 characters, within the bound of
    48 + 43 + 86. *)
Lemma GenerateFromPassword_text_defaults :
  let record :=
    "$argon2id$v=19$m=4096,t=10,p=2$AQIDBAUGBwgJCgsMDQ4PEBESExQVFhcYGRobHB0eHyA$Zm9vMTIzAQIDBAUGBwgJCgsMDQ4PEBESExQVFhcYGRobHB0eHyAqKioqKioqKioqKioqKioqKioqKioqKioqKg" in
  allOf recordChar record = true /\ allOf isASCII record = true /\
  strings.Count record "$" = 5%nat /\
  List.length (strings.Split record "$") = 6%nat.
Proof.
  exact (GenerateFromPassword_text tests.toyKey tests.entropy
           (skipn 32 tests.entropy) tests.password None _
           ltac:(concrete) ltac:(vm_compute; reflexivity)).
Defined.

Lemma GenerateFromPassword_length_defaults :
  Z.of_nat (String.length
    "$argon2id$v=19$m=4096,t=10,p=2$AQIDBAUGBwgJCgsMDQ4PEBESExQVFhcYGRobHB0eHyA$Zm9vMTIzAQIDBAUGBwgJCgsMDQ4PEBESExQVFhcYGRobHB0eHyAqKioqKioqKioqKioqKioqKioqKioqKioqKg")
  <= 48 + 43 + 86.
Proof.
  exact (GenerateFromPassword_length tests.toyKey tests.entropy
           (skipn 32 tests.entropy) tests.password None _
           toyKey_length ltac:(concrete) ltac:(vm_compute; reflexivity)).
Defined.
